(** * mobilecoin command-line wallet: a shallow embedding of [mobilecoin/cli.py]

    The development follows the Python source function by function.
    Effects (terminal input and output, calls on the wallet client, the
    filesystem, [exit]) are threaded through a state-and-error monad whose
    state records, in order, every interaction with the outside. *)

From Stdlib Require Import ZArith QArith Qpower Qfield String Ascii List Lia SpecFloat.
From Stdlib.Strings Require Import Byte.
From Stdlib Require Qcanon.
From stdpp Require Import base option strings list gmap.

Set Warnings "-register-all".
Local Open Scope string_scope.
Local Open Scope Z_scope.

(** ** Python values *)

(** Values that travel through JSON: what [json.load] produces and what the
    wallet server puts into its replies. A [dict] keeps insertion order, so
    it is an association list. *)
Inductive pyval : Type :=
| PNone
| PBool (b : bool)
| PInt (z : Z)
| PStr (s : string)
| PList (l : list pyval)
| PDict (d : list (string * pyval)).

(** Exceptions the modelled code can meet. [ClientError] stands for any
    exception coming out of a method of [mobilecoin.client.Client];
    [OSError] for an error of the operating system that has no class of its
    own, with its [errno] (36 for a file name that is too long). *)
Inductive exn : Type :=
| ValueError
| LookupError
| IndexError
| KeyError (key : string)
| TypeError
| EOFError
| FileNotFoundError (path : string)
| IsADirectoryError (path : string)
| PermissionError (path : string)
| OSError (errno : Z)
| UnicodeDecodeError
| JSONDecodeError
| SyncTimeout
| ClientError (msg : string).

Definition exn_name (e : exn) : string :=
  match e with
  | ValueError => "ValueError"
  | LookupError => "LookupError"
  | IndexError => "IndexError"
  | KeyError _ => "KeyError"
  | TypeError => "TypeError"
  | EOFError => "EOFError"
  | FileNotFoundError _ => "FileNotFoundError"
  | IsADirectoryError _ => "IsADirectoryError"
  | PermissionError _ => "PermissionError"
  | OSError _ => "OSError"
  | UnicodeDecodeError => "UnicodeDecodeError"
  | JSONDecodeError => "JSONDecodeError"
  | SyncTimeout => "SyncTimeout"
  | ClientError _ => "ClientError"
  end.

(** Result of a call that may raise. *)
Inductive result (A : Type) : Type :=
| Ok (a : A)
| Err (e : exn).
Arguments Ok {A} a.
Arguments Err {A} e.

Fixpoint assoc (k : string) (d : list (string * pyval)) : option pyval :=
  match d with
  | [] => None
  | (k', v) :: d' => if String.eqb k k' then Some v else assoc k d'
  end.

(** [data[key]] for a string key. *)
Definition py_getitem (data : pyval) (key : string) : result pyval :=
  match data with
  | PDict d =>
      match assoc key d with
      | Some v => Ok v
      | None => Err (KeyError key)
      end
  | _ => Err TypeError
  end.

(** ** Decimal numbers *)

(** A [decimal.Decimal]: a finite value is an exact rational, as neither
    construction from an integer or a float nor comparison rounds. *)
Inductive Decimal : Type :=
| DFinite (q : Q)
| DInfinity (negative : bool)
| DNaN.

(** [Decimal == 0]. *)
Definition Decimal_is_zero (d : Decimal) : bool :=
  match d with
  | DFinite q => Qeq_bool q 0
  | _ => false
  end.

(** ** Records of the wallet server *)

Record account : Type := {
  account_id : string;
  name : string;
  main_address : string;
  first_block_index : pyval;
}.

(** The block indices are carried as decimal digits in the JSON payload;
    the record holds the integers they denote, the value [int(...)] gives. *)
Record balance : Type := {
  unspent_pmob : Z;
  is_synced : bool;
  account_block_index : Z;
  network_block_index : Z;
  local_block_index : Z;
}.

Record secrets : Type := {
  entropy : string;
  account_key : pyval;
}.

(** ** Interactions with the outside *)

(** Method calls on [self.client]. *)
Inductive call : Type :=
| Call_get_all_accounts
| Call_get_balance_for_account (id : string)
| Call_export_account_secrets (id : string)
| Call_delete_account (id : string)
| Call_send_transaction (id : string) (amount : Decimal) (to_address : string)
| Call_import_account (entropy : pyval) (name : pyval) (block : pyval)
| Call_build_and_submit_transaction (id : string) (amount : Decimal) (to_address : string).

Inductive event : Type :=
| Printed (text : string)
| PrintedStatus (mob : Decimal) (synced : Z) (total : Z) (offline : bool)
| PrintedFormat (template : string) (amount : Decimal) (args : list string)
| Prompted (message : string) (answer : string)
| Called (c : call)
| MnemonicToEntropy (words : string)
| Opened (path : string)
| Wrote (path : string)
| Slept.

(** What the file system holds under a name, as far as [open] and
    [json.load] can tell. A file that opens and reads as text is a JSON
    document (possibly followed by white space) or some other text;
    [json.dump] followed by [json.load] gives back the value that was
    dumped. [Unreadable e] is a file that opens but whose content cannot be
    read as text, the read raising [e] ([UnicodeDecodeError] for bytes that
    are not text in the encoding). [Unopenable e] is a name that [open]
    refuses with [e]: [IsADirectoryError] for a directory,
    [PermissionError] for a file the user may not read, [OSError] for a
    name that is too long, [ValueError] for a name with a null character.
    A name the file system does not hold at all is refused with
    [FileNotFoundError]. *)
Inductive file : Type :=
| JsonText (doc : pyval)
| OtherText (raw : string)
| Unreadable (e : exn)
| Unopenable (e : exn).

(** The wallet client, [mobilecoin.client.Client], is not part of the
    modelled file. Each method is an oracle: its reply may depend on
    everything that happened before the call. *)
Class Client : Type := {
  get_all_accounts : list event -> result (list (string * account));
  get_balance_for_account : list event -> string -> result balance;
  export_account_secrets : list event -> string -> result secrets;
  delete_account : list event -> string -> result unit;
  send_transaction : list event -> string -> Decimal -> string -> result unit;
  import_account : list event -> pyval -> pyval -> pyval -> result account;
  build_and_submit_transaction : list event -> string -> Decimal -> string -> result Z;
}.

Record world : Type := {
  stdin : list string;
  files : gmap string file;
  trace : list event;
}.

(** ** The monad of a command *)

Inductive outcome (A : Type) : Type :=
| Returned (a : A)
| Exited (code : Z)
| Raised (e : exn).
Arguments Returned {A} a.
Arguments Exited {A} code.
Arguments Raised {A} e.

Definition M (A : Type) : Type := world -> outcome A * world.

#[global] Instance M_ret : MRet M := fun A a w => (Returned a, w).

#[global] Instance M_bind : MBind M := fun A B k m w =>
  match m w with
  | (Returned a, w') => k a w'
  | (Exited code, w') => (Exited code, w')
  | (Raised e, w') => (Raised e, w')
  end.

Definition raise {A} (e : exn) : M A := fun w => (Raised e, w).

(** [exit(code)]. *)
Definition exit {A} (code : Z) : M A := fun w => (Exited code, w).

Definition emit (e : event) : M unit := fun w =>
  (Returned tt, {| stdin := stdin w; files := files w; trace := trace w ++ [e] |}).

Definition print (text : string) : M unit := emit (Printed text).

(** [input(message)]: the next line of standard input. *)
Definition input (message : string) : M string := fun w =>
  match stdin w with
  | [] => (Raised EOFError, w)
  | answer :: rest =>
      (Returned answer,
       {| stdin := rest; files := files w;
          trace := trace w ++ [Prompted message answer] |})
  end.

(** A call on the client: the call is recorded, then the oracle answers
    from the history up to the call. *)
Definition rpc {A} (c : call) (reply : list event -> result A) : M A := fun w =>
  let w' := {| stdin := stdin w; files := files w; trace := trace w ++ [Called c] |} in
  match reply (trace w) with
  | Ok a => (Returned a, w')
  | Err e => (Raised e, w')
  end.

Definition lift {A} (r : result A) : M A :=
  match r with
  | Ok a => mret a
  | Err e => raise e
  end.

(** The events a run adds to the trace. *)
Definition new_events (w w' : world) : list event := drop (length (trace w)) (trace w').

(** ** Bytes, hexadecimal text and bit strings *)

Definition hexval (c : ascii) : option N :=
  let n := N_of_ascii c in
  if ((48 <=? n) && (n <=? 57))%N then Some (n - 48)%N
  else if ((97 <=? n) && (n <=? 102))%N then Some (n - 87)%N
  else if ((65 <=? n) && (n <=? 70))%N then Some (n - 55)%N
  else None.

(** ASCII white space, as [bytes.fromhex] skips it between bytes. *)
Definition is_space (c : ascii) : bool :=
  let n := N_of_ascii c in
  ((n =? 32) || ((9 <=? n) && (n <=? 13)))%N.

(** [bytes.fromhex(s)]; [None] is [ValueError]. White space is skipped
    before a byte only, never between the two digits of one. *)
Fixpoint bytes_fromhex (s : string) : option (list byte) :=
  match s with
  | EmptyString => Some []
  | String c r =>
      if is_space c then bytes_fromhex r
      else
        match r with
        | EmptyString => None
        | String d r' =>
            match hexval c, hexval d with
            | Some hi, Some lo =>
                match Byte.of_N (16 * hi + lo), bytes_fromhex r' with
                | Some b, Some bs => Some (b :: bs)
                | _, _ => None
                end
            | _, _ => None
            end
        end
  end.

Definition hexdigit (n : N) : ascii :=
  if (n <? 10)%N then ascii_of_N (48 + n) else ascii_of_N (87 + n).

Definition byte_hex (b : byte) : string :=
  let n := Byte.to_N b in
  String (hexdigit (n / 16)) (String (hexdigit (n mod 16)) EmptyString).

(** [b.hex()]. *)
Fixpoint bytes_hex (l : list byte) : string :=
  match l with
  | [] => EmptyString
  | b :: r => byte_hex b +:+ bytes_hex r
  end.

(** The eight bits of a byte, most significant first. *)
Definition bits_of_byte (b : byte) : list bool :=
  let '(b0, (b1, (b2, (b3, (b4, (b5, (b6, b7))))))) := Byte.to_bits b in
  [b7; b6; b5; b4; b3; b2; b1; b0].

Definition byte_of_bits (l : list bool) : byte :=
  Byte.of_bits
    (nth 7 l false, (nth 6 l false, (nth 5 l false, (nth 4 l false,
    (nth 3 l false, (nth 2 l false, (nth 1 l false, nth 0 l false))))))).

Definition bits_of_bytes (l : list byte) : list bool := flat_map bits_of_byte l.

(** [n] bytes read off the front of a bit string. *)
Fixpoint bytes_of_bits (n : nat) (bits : list bool) : list byte :=
  match n with
  | O => []
  | S n' => byte_of_bits (take 8 bits) :: bytes_of_bits n' (drop 8 bits)
  end.

Fixpoint bits_le (width : nat) (n : N) : list bool :=
  match width with
  | O => []
  | S w => N.odd n :: bits_le w (N.div2 n)
  end.

Fixpoint N_of_bits_le (l : list bool) : N :=
  match l with
  | [] => 0%N
  | b :: r => (N.b2n b + 2 * N_of_bits_le r)%N
  end.

(** [width] bits of [n], most significant first. *)
Definition bits_of_nat (width : nat) (n : nat) : list bool :=
  rev (bits_le width (N.of_nat n)).

(** [int(bits, 2)]. *)
Definition nat_of_bits (l : list bool) : nat := N.to_nat (N_of_bits_le (rev l)).

(** [n] consecutive slices of [size] elements. *)
Fixpoint chunks {A} (size n : nat) (l : list A) : list (list A) :=
  match n with
  | O => []
  | S n' => take size l :: chunks size n' (drop size l)
  end.

(** ** Strings *)

Definition is_blank (c : ascii) : bool := Ascii.eqb c " "%char.

Definition cons_char (c : ascii) (l : list string) : list string :=
  match l with
  | w :: ws => String c w :: ws
  | [] => [String c EmptyString]
  end.

(** [s.split(" ")]. *)
Fixpoint split_space (s : string) : list string :=
  match s with
  | EmptyString => [EmptyString]
  | String c r =>
      if is_blank c then EmptyString :: split_space r
      else cons_char c (split_space r)
  end.

Definition lower_char (c : ascii) : ascii :=
  let n := N_of_ascii c in
  if ((65 <=? n) && (n <=? 90))%N then ascii_of_N (n + 32) else c.

(** [s.lower()] on ASCII text. *)
Fixpoint lower (s : string) : string :=
  match s with
  | EmptyString => EmptyString
  | String c r => String (lower_char c) (lower r)
  end.

(** [s.startswith(prefix)] is [String.prefix prefix s]; [s[:n]] is
    [String.substring 0 n s]. *)
Definition startswith (s prefix : string) : bool := String.prefix prefix s.
Definition slice_to (n : nat) (s : string) : string := String.substring 0 n s.

(** ** The [mnemonic] package *)

(** [Mnemonic('english')] of the [mnemonic] package (BIP-39) is not part of
    the modelled file. Its two methods are written out over the two things
    they take from elsewhere: the SHA-256 digest and the word list. *)
Class Bip39 : Type := {
  sha256 : list byte -> list byte;
  wordlist : list string;
}.

Fixpoint index_of (w : string) (l : list string) : option nat :=
  match l with
  | [] => None
  | x :: r => if String.eqb w x then Some O else S <$> index_of w r
  end.

Definition allowed_word_count (n : nat) : bool :=
  bool_decide (n ∈ [12; 15; 18; 21; 24]%nat).

Definition allowed_byte_count (n : nat) : bool :=
  bool_decide (n ∈ [16; 20; 24; 28; 32]%nat).

Section Mnemonic.
Context {bip39 : Bip39}.

(** Modelled from the spec: [Mnemonic.to_entropy], the word-list and
    checksum validated decoding of a phrase. A bad word count and a bad
    checksum are [ValueError], an unknown word is [LookupError]. *)
Definition to_entropy (words : string) : result (list byte) :=
  let words := split_space words in
  if negb (allowed_word_count (length words)) then Err ValueError
  else
    match mapM (fun w => index_of w wordlist) words with
    | None => Err LookupError
    | Some indices =>
        let concatLenBits := (length words * 11)%nat in
        let concatBits := flat_map (bits_of_nat 11) indices in
        let checksumLengthBits := (concatLenBits / 33)%nat in
        let entropyLengthBits := (concatLenBits - checksumLengthBits)%nat in
        let entropy := bytes_of_bits (entropyLengthBits / 8) concatBits in
        let hashBits := bits_of_bytes (sha256 entropy) in
        if bool_decide (take checksumLengthBits (drop entropyLengthBits concatBits)
                        = take checksumLengthBits hashBits)
        then Ok entropy
        else Err ValueError
    end.

(** Modelled from the spec: [Mnemonic.to_mnemonic], the inverse
    encoding: the bits of the data followed by the first bits of its
    digest, cut into groups of eleven, each naming a word. *)
Definition to_mnemonic (data : list byte) : result string :=
  if negb (allowed_byte_count (length data)) then Err ValueError
  else
    let b := (bits_of_bytes data
              ++ take (length data * 8 / 32) (bits_of_bytes (sha256 data)))%list in
    match mapM (fun group => wordlist !! nat_of_bits group)
               (chunks 11 (length b / 11) b) with
    | None => Err IndexError
    | Some result => Ok (String.concat " " result)
    end.
End Mnemonic.

(** ** Amounts *)

(** Modelled from the spec: [mobilecoin.client.pmob2mob], the conversion
    of an integer amount of the smallest unit to the display unit, at
    10^12 smallest units per display unit, in exact decimal arithmetic. *)
Definition pmob2mob (x : Z) : Decimal := DFinite (x # 1000000000000).

(** Modelled from the spec: the conversion back to the smallest unit, at
    the same scale. The spec gives no rounding rule, so an amount that is
    not a whole number of smallest units has no image. *)
Definition mob2pmob (mob : Decimal) : option Z :=
  match mob with
  | DFinite q =>
      let p := Qred (q * (1000000000000 # 1)) in
      if (Qden p =? 1)%positive then Some (Qnum p) else None
  | _ => None
  end.

(** Python's [float] is IEEE 754 binary64. *)
Definition prec : Z := 53.
Definition emax : Z := 1024.

Definition digitval (c : ascii) : option Z :=
  let n := N_of_ascii c in
  if ((48 <=? n) && (n <=? 57))%N then Some (Z.of_N (n - 48)) else None.

(** Reads [digits[.digits]]: the digits as one integer, the number of
    digits read, and the number of them after the point. *)
Fixpoint literal_digits (s : string) (seen_point : bool) (coef : Z) (digits frac : nat)
  : option (Z * nat * nat) :=
  match s with
  | EmptyString => Some (coef, digits, frac)
  | String c r =>
      if Ascii.eqb c "."%char then
        if seen_point then None else literal_digits r true coef digits frac
      else
        match digitval c with
        | Some d =>
            literal_digits r seen_point (10 * coef + d) (S digits)
                           (if seen_point then S frac else frac)
        | None => None
        end
  end.

(** [float(text)], the conversion [argparse] applies to the amount on the
    command line ([type=float]), on the plain literals [digits[.digits]]
    whose digits and scale are both exact in binary64: there the correctly
    rounded quotient is the float nearest to the text. Other texts are
    outside this definition ([None]). *)
Definition float_of_literal (text : string) : option spec_float :=
  match literal_digits text false 0 0 0 with
  | Some (coef, digits, frac) =>
      if bool_decide (0 < digits)%nat && (coef <? 2 ^ 53) && bool_decide (frac <= 22)%nat
      then Some (SFdiv prec emax
                   (binary_normalize prec emax coef 0 false)
                   (binary_normalize prec emax (10 ^ Z.of_nat frac) 0 false))
      else None
  | None => None
  end.

(** [Decimal(x)] for a float [x]: the exact value of [x]. *)
Definition Decimal_of_float (x : spec_float) : Decimal :=
  match x with
  | S754_zero _ => DFinite 0
  | S754_infinity s => DInfinity s
  | S754_nan => DNaN
  | S754_finite s m e => DFinite (inject_Z (cond_Zopp s (Z.pos m)) * Qpower 2 e)
  end.

(** The value of a literal [digits[.digits]] read as a decimal number. *)
Definition Decimal_of_literal (text : string) : option Decimal :=
  match literal_digits text false 0 0 0 with
  | Some (coef, digits, frac) =>
      if bool_decide (0 < digits)%nat
      then Some (DFinite (inject_Z coef / inject_Z (10 ^ Z.of_nat frac)))
      else None
  | None => None
  end.

Definition Decimal_eqb (a b : Decimal) : bool :=
  match a, b with
  | DFinite p, DFinite q => Qeq_bool p q
  | DInfinity s, DInfinity t => Bool.eqb s t
  | _, _ => false
  end.

(** [sep.join(...)]: [str.join] takes exactly one argument, an iterable;
    the characters of a string when that is one. *)
Definition str_join (sep : string) (args : list string) : result string :=
  match args with
  | [s] => Ok (String.concat sep (map (fun c => String c EmptyString) (list_ascii_of_string s)))
  | _ => Err TypeError
  end.

(** ** Module-level functions of [cli.py] *)

Definition confirm (message : string) : M bool :=
  confirmation ← input message;
  mret (bool_decide (lower confirmation ∈ ["y"; "yes"])).

(** The block count an account is shown against ([list], lines 237-240,
    and [_print_account], lines 285-288, compute it the same way), with
    the offline flag. *)
Definition total_blocks (b : balance) : Z * bool :=
  let total_blocks := network_block_index b in
  let offline := (total_blocks =? 0) in
  let total_blocks := if offline then local_block_index b else total_blocks in
  (total_blocks, offline).

Definition _print_account (a : account) (b : balance) : M unit :=
  let account_id := account_id a in
  let '(total_blocks, offline) := total_blocks b in
  print (slice_to 6 account_id +:+ " " +:+ name a);;
  print ("  address " +:+ main_address a);;
  emit (PrintedStatus (pmob2mob (unspent_pmob b)) (account_block_index b)
          total_blocks offline).

(** [open(path)], for reading: the exception is the one the file system
    gives for the name. *)
Definition open_read (path : string) : M file := fun w =>
  let w' := {| stdin := stdin w; files := files w; trace := (trace w ++ [Opened path])%list |} in
  match files w !! path with
  | Some (Unopenable e) => (Raised e, w')
  | Some f => (Returned f, w')
  | None => (Raised (FileNotFoundError path), w')
  end.

(** [json.load(f)]: the whole file is read as text, then parsed. *)
Definition json_load (f : file) : M pyval :=
  match f with
  | JsonText doc => mret doc
  | OtherText _ => raise JSONDecodeError
  | Unreadable e => raise e
  | Unopenable e => raise e
  end.

(** [with open(filename, 'w') as f: json.dump(data, f, indent=4); f.write('\n')]. *)
Definition json_dump_to (filename : string) (data : pyval) : M unit := fun w =>
  (Returned tt,
   {| stdin := stdin w;
      files := <[filename := JsonText data]> (files w);
      trace := (trace w ++ [Wrote filename])%list |}).

Section Seed.
Context {bip39 : Bip39}.

(** Last chance of [_load_import]: the seed as a JSON filename. *)
Definition _load_import_file (seed : string) : M (pyval * pyval) :=
  f ← open_read seed;
  data ← json_load f;
  root_entropy ← lift (py_getitem data "root_entropy");
  first_block ← lift (py_getitem data "first_block_index");
  mret (root_entropy, first_block).

(** Second attempt of [_load_import]: the seed as a BIP39 mnemonic. *)
Definition _load_import_mnemonic (seed : string) : M (pyval * pyval) :=
  emit (MnemonicToEntropy seed);;
  match to_entropy seed with
  | Ok entropy => mret (PStr (bytes_hex entropy), PNone)
  | Err ValueError | Err LookupError => _load_import_file seed
  | Err e => raise e
  end.

Definition _load_import (seed : string) : M (pyval * pyval) :=
  match bytes_fromhex seed with
  | Some b =>
      if (length b =? 32)%nat then mret (PStr (bytes_hex b), PNone)
      else _load_import_mnemonic seed
  | None => _load_import_mnemonic seed
  end.

Definition _save_export (a : account) (s : secrets) (filename : string) : M unit :=
  let entropy := entropy s in
  b ← lift (match bytes_fromhex entropy with Some b => Ok b | None => Err ValueError end);
  seed_phrase ← lift (to_mnemonic b);
  let export_data :=
    PDict [ ("seed_phrase", PStr seed_phrase);
            ("root_entropy", PStr entropy);
            ("account_id", PStr (account_id a));
            ("account_name", PStr (name a));
            ("account_key", account_key s);
            ("first_block_index", first_block_index a) ] in
  json_dump_to filename export_data.
End Seed.

Definition newline : string := String (ascii_of_N 10) EmptyString.

(** [accounts[account_id]] on the dict of accounts. *)
Fixpoint dict_get (k : string) (d : list (string * account)) : result account :=
  match d with
  | [] => Err (KeyError k)
  | (k', a) :: d' => if String.eqb k k' then Ok a else dict_get k d'
  end.

Definition is_None (v : pyval) : bool :=
  match v with
  | PNone => true
  | _ => false
  end.

(** ** The class [CommandLineInterface] *)

Module CommandLineInterface.
Section Methods.
Context {bip39 : Bip39} {client : Client}.

Definition _load_account_prefix (prefix : string) : M account :=
  accounts ← rpc Call_get_all_accounts get_all_accounts;
  let matching_ids :=
    List.filter (fun a_id => startswith a_id prefix) (map fst accounts) in
  match matching_ids with
  | [] =>
      print ("Could not find account starting with " +:+ prefix);;
      exit 1
  | [account_id] => lift (dict_get account_id accounts)
  | _ =>
      print ("Multiple matching matching ids: " +:+ String.concat ", " matching_ids);;
      exit 1
  end.

(** [args] of the source is [name] and [block], each [None] when the
    option is not on the command line. *)
Definition import_ (seed : string) (name block : pyval) : M unit :=
  '(entropy, file_block) ← _load_import seed;
  let block :=
    if is_None block && negb (is_None file_block) then file_block else block in
  account ← rpc (Call_import_account entropy name block)
                (fun h => import_account h entropy name block);
  let account_id := account_id account in
  balance ← rpc (Call_get_balance_for_account account_id)
                (fun h => get_balance_for_account h account_id);
  print "Imported account.";;
  print "";;
  _print_account account balance;;
  print "".

(** The parameter is [account_id] in the source, which rebinds it to the
    full identifier on its second line. *)
Definition export (prefix : string) : M unit :=
  account ← _load_account_prefix prefix;
  let account_id := account_id account in
  balance ← rpc (Call_get_balance_for_account account_id)
                (fun h => get_balance_for_account h account_id);
  print "You are about to export the seed phrase for this account:";;
  print "";;
  _print_account account balance;;
  print "";;
  print "Anyone who has access to the seed phrase can spend all the";;
  print "funds in the account. Keep the exported file safe and private!";;
  confirmed ← confirm "Really write account seed phrase to a file? (Y/N) ";
  if negb confirmed then print "Cancelled."
  else
    secrets ← rpc (Call_export_account_secrets account_id)
                  (fun h => export_account_secrets h account_id);
    let filename := "mobilecoin_seed_phrase_" +:+ slice_to 16 account_id +:+ ".json" in
    _save_export account secrets filename;;
    print ("Wrote " +:+ filename +:+ ".").

Definition delete (prefix : string) : M unit :=
  account ← _load_account_prefix prefix;
  let account_id := account_id account in
  balance ← rpc (Call_get_balance_for_account account_id)
                (fun h => get_balance_for_account h account_id);
  let amount := pmob2mob (unspent_pmob balance) in
  let finish : M unit :=
    rpc (Call_delete_account account_id) (fun h => delete_account h account_id);;
    print "Deleted." in
  if is_synced balance && Decimal_is_zero amount then
    print ("Account " +:+ slice_to 6 account_id +:+ " has 0 MOB.");;
    finish
  else
    print "You are about to delete this account:";;
    print "";;
    _print_account account balance;;
    print "";;
    print "You will lose access to the funds in this account unless you";;
    print "restore it from the seed phrase.";;
    confirmed ← confirm "Continue? (Y/N) ";
    if negb confirmed then print "Cancelled."
    else finish.

(** [amount] is the float [argparse] made of the command-line text. *)
Definition send (prefix : string) (amount : spec_float) (to_address : string) : M unit :=
  account ← _load_account_prefix prefix;
  let from_account_id := account_id account in
  let amount := Decimal_of_float amount in
  template ← lift (str_join newline
                     ["Sending {:.4f} MOB from account {} {}"; "to address {}."]);
  emit (PrintedFormat template amount
          [slice_to 6 from_account_id; name account; to_address]);;
  confirmed ← confirm "Confirm? (Y/N) ";
  if negb confirmed then print "Cancelled."
  else
    rpc (Call_send_transaction from_account_id amount to_address)
        (fun h => send_transaction h from_account_id amount to_address);;
    print "Sent.".

(** The body of [send] once the account is resolved (lines 251-268), for
    whatever the [join] call of line 254 gives: [joined] is its result.
    [send] is this body at the result of [str_join] on the two arguments
    the source passes. *)
Definition send_from_join (joined : result string) (account : account)
           (amount : spec_float) (to_address : string) : M unit :=
  let from_account_id := account_id account in
  let amount := Decimal_of_float amount in
  template ← lift joined;
  emit (PrintedFormat template amount
          [slice_to 6 from_account_id; name account; to_address]);;
  confirmed ← confirm "Confirm? (Y/N) ";
  if negb confirmed then print "Cancelled."
  else
    rpc (Call_send_transaction from_account_id amount to_address)
        (fun h => send_transaction h from_account_id amount to_address);;
    print "Sent.".

Definition list : M unit :=
  accounts ← rpc Call_get_all_accounts get_all_accounts;
  if (length accounts =? 0)%nat then print "No accounts."
  else
    account_list ← mapM (fun '(account_id, account) =>
                           balance ← rpc (Call_get_balance_for_account account_id)
                                         (fun h => get_balance_for_account h account_id);
                           mret (account_id, account, balance)) accounts;
    mapM (fun '(account_id, account, balance) =>
            let '(total_blocks, offline) := total_blocks balance in
            print "";;
            _print_account account balance) account_list;;
    print "".
End Methods.
End CommandLineInterface.

(** ** Waiting for the ledger *)

Section Poller.
Context {client : Client}.

(** Modelled from the spec: [Client.poll_balance_until_synced] of
    [mobilecoin/client.py], the sync poller. It fetches the balance again
    and again, sleeping in between. Without a target it succeeds when the
    account-local index equals the network index of the same reply (the
    local index when offline); with a target it succeeds only once the
    account-local index is at least the target. The number of attempts
    is bounded, and running out of them is [SyncTimeout]. *)
Fixpoint poll_balance_until_synced (attempts : nat) (account_id : string)
         (min_block_index : option Z) : M balance :=
  match attempts with
  | O => raise SyncTimeout
  | S n =>
      b ← rpc (Call_get_balance_for_account account_id)
              (fun h => get_balance_for_account h account_id);
      let reached :=
        match min_block_index with
        | Some target => (target <=? account_block_index b)
        | None => (account_block_index b =? fst (total_blocks b))
        end in
      if reached then mret b
      else emit Slept;; poll_balance_until_synced n account_id min_block_index
  end.

(** The send-and-confirm sequence as [test_transactions_inner] runs it
    (lines 145-147): submit, take the submitted block index, wait for the
    block after it. *)
Definition send_and_confirm (attempts : nat) (source_account_id : string)
           (amount : Decimal) (to_address dest_account_id : string) : M balance :=
  tx_index ← rpc (Call_build_and_submit_transaction source_account_id amount to_address)
                 (fun h => build_and_submit_transaction h source_account_id amount to_address);
  poll_balance_until_synced attempts dest_account_id (Some (tx_index + 1)).
End Poller.

(** ** Vocabulary of the properties *)

(** An answer [confirm] takes as a yes. *)
Definition affirmative (answer : string) : bool :=
  bool_decide (lower answer ∈ ["y"; "yes"]).


Definition is_delete_call (c : call) : bool :=
  match c with Call_delete_account _ => true | _ => false end.
Definition is_send_call (c : call) : bool :=
  match c with
  | Call_send_transaction _ _ _ | Call_build_and_submit_transaction _ _ _ => true
  | _ => false
  end.

Definition is_prompt (e : event) : bool :=
  match e with Prompted _ _ => true | _ => false end.
Definition is_call (sel : call -> bool) (e : event) : bool :=
  match e with Called c => sel c | _ => false end.

(** The spec's rule for the starting block of an import: the explicit
    block when one is given, otherwise what the seed decoder found. *)
Definition spec_starting_block (explicit decoded : pyval) : pyval :=
  match explicit with
  | PNone => decoded
  | _ => explicit
  end.

(** The world after a run and the events the run added. *)
Definition run {A} (m : M A) (w : world) : outcome A * list event :=
  (fst (m w), new_events w (snd (m w))).

Definition is_lower (c : ascii) : bool :=
  let n := N_of_ascii c in ((97 <=? n) && (n <=? 122))%N.

Definition word_ok (w : string) : bool :=
  bool_decide (3 <= String.length w <= 8)%nat
  && forallb is_lower (list_ascii_of_string w).

Fixpoint distinct (l : list string) : bool :=
  match l with
  | [] => true
  | x :: r => negb (existsb (String.eqb x) r) && distinct r
  end.

(** What the development uses of the English word list: 2048 distinct
    words of three to eight lower-case letters. *)
Definition wordlist_ok (l : list string) : bool :=
  (length l =? 2048)%nat && forallb word_ok l && distinct l.

Definition is_import_call (c : call) : bool :=
  match c with Call_import_account _ _ _ => true | _ => false end.

(** The form the seed decoder finds in a seed. *)
Definition is_hex_form (seed : string) : bool :=
  match bytes_fromhex seed with
  | Some b => (length b =? 32)%nat
  | None => false
  end.

Definition is_mnemonic_form {bip39 : Bip39} (seed : string) : bool :=
  negb (is_hex_form seed)
  && match to_entropy seed with Ok _ => true | Err _ => false end.

Definition is_hex_digit (c : ascii) : bool :=
  match hexval c with Some _ => true | None => false end.

(** The number of characters of a string that are not white space. *)
Fixpoint nonspace_count (s : string) : nat :=
  match s with
  | EmptyString => O
  | String c r => if is_space c then nonspace_count r else S (nonspace_count r)
  end.

(** What the recovery-file attempt of the decoder gives in a world. *)
Definition recovery_file_outcome (seed : string) (w : world) : outcome (pyval * pyval) :=
  match files w !! seed with
  | None => Raised (FileNotFoundError seed)
  | Some (Unopenable e) => Raised e
  | Some (Unreadable e) => Raised e
  | Some (OtherText _) => Raised JSONDecodeError
  | Some (JsonText data) =>
      match py_getitem data "root_entropy" with
      | Err e => Raised e
      | Ok root_entropy =>
          match py_getitem data "first_block_index" with
          | Err e => Raised e
          | Ok first_block => Returned (root_entropy, first_block)
          end
      end
  end.

(** The amount [send] works with, from the text typed on the command
    line: [argparse] makes a float of the text (line 81, [type=float]) and
    [send] makes a [Decimal] of that float (line 252). *)
Definition typed_amount (text : string) : option Decimal :=
  Decimal_of_float <$> float_of_literal text.

(** A rational that is an integer over a power of two. *)
Definition dyadic (q : Q) : Prop :=
  exists (z : Z) (k : nat), q * inject_Z (2 ^ Z.of_nat k) == inject_Z z.

(** The status line of a balance by the rule of the spec: against the local
    block index, flagged offline, when the network block index is zero,
    and against the network block index otherwise. *)
Definition status_line (b : balance) : event :=
  PrintedStatus (pmob2mob (unspent_pmob b)) (account_block_index b)
    (if network_block_index b =? 0 then local_block_index b else network_block_index b)
    (network_block_index b =? 0).

(** ** Sample instances *)

Definition sample_word (i : nat) : string :=
  let n := N.of_nat i in
  String (ascii_of_N (97 + n / 256))
    (String (ascii_of_N (97 + (n / 16) mod 16))
       (String (ascii_of_N (97 + n mod 16)) EmptyString)).

Definition sample_bip39 : Bip39 := {|
  sha256 := fun data => take 32 (data ++ repeat x00 32)%list;
  wordlist := map sample_word (seq 0 2048);
|}.

Definition sample_account (id : string) : account := {|
  account_id := id; name := "savings"; main_address := "6UEtkm1rieLh";
  first_block_index := PStr "7";
|}.

Definition sample_balance (pmob : Z) (synced : bool) (account_index : Z) : balance := {|
  unspent_pmob := pmob; is_synced := synced; account_block_index := account_index;
  network_block_index := 10; local_block_index := 10;
|}.

Definition count_balance_calls (h : list event) : nat :=
  length (List.filter (is_call (fun c => match c with
                                         | Call_get_balance_for_account _ => true
                                         | _ => false
                                         end)) h).

(** A wallet holding the two accounts of the spec's resolver example; the
    first is empty and synced, the second holds funds. The account-local
    index is 10 at the first balance query and 11 from the second on,
    while the network index stays at 10. *)
Definition sample_client : Client := {|
  get_all_accounts := fun _ =>
    Ok [("abc123", sample_account "abc123"); ("abcxyz", sample_account "abcxyz")];
  get_balance_for_account := fun h id =>
    Ok (sample_balance (if String.eqb id "abc123" then 0 else 5000000000000) true
          (if (count_balance_calls h =? 0)%nat then 10 else 11));
  export_account_secrets := fun _ _ =>
    Ok {| entropy := "0000000000000000000000000000000000000000000000000000000000000000";
          account_key := PDict [("view_private_key", PStr "0a20b0146de8")] |};
  delete_account := fun _ _ => Ok tt;
  send_transaction := fun _ _ _ _ => Ok tt;
  import_account := fun _ _ _ _ => Ok (sample_account "abc123");
  build_and_submit_transaction := fun _ _ _ _ => Ok 10;
|}.

Definition empty_world (answers : list string) : world :=
  {| stdin := answers; files := ∅; trace := [] |}.

Definition zero_entropy : list byte := repeat x00 32.
Definition zero_entropy_hex : string :=
  "0000000000000000000000000000000000000000000000000000000000000000".

(** A world with one recovery file. *)
Definition world_with_recovery_file : world :=
  {| stdin := [];
     files := {[ "wallet.json" :=
                   JsonText (PDict [("root_entropy", PStr zero_entropy_hex);
                                    ("first_block_index", PInt 7)]) ]};
     trace := [] |}.


(** ** Starting and stopping the wallet server *)

(** The two values the module constant [NETWORK] may take (line 16). *)
Inductive network : Type :=
| testnet
| mainnet.

(** What [start] and [stop] do to the operating system, in order. *)
Inductive os_action : Type :=
| Os_print (text : string)
| Os_mkdir (path : string) (parents exist_ok : bool)
| Os_setenv (key value : string)
| Os_popen_shell (command : string)
| Os_run_shell (command : string)
| Os_popen (args : list string).

Definition double_quote : string := String (ascii_of_N 34) EmptyString.

Section Server.
Variable NETWORK : network.

(** The text of the path [MC_DATA], the directory [.mobilecoin/NETWORK] of
    the home directory. *)
Variable MC_DATA : string.

Definition LOG_LOCATION : string := MC_DATA +:+ "/wallet_server_log.txt".

(** The list [wallet_server_command] as [start] has built it when it
    launches the server. *)
Definition wallet_server_command (offline bg : bool) : list string :=
  (match NETWORK with
   | testnet => ["./full-service-testnet"]
   | mainnet => ["./full-service-mainnet"]
   end
   ++ ["--wallet-db"; MC_DATA +:+ "/wallet-db/wallet.db";
       "--ledger-db"; MC_DATA +:+ "/ledger-db"]
   ++ (if offline then ["--offline"]
       else
         match NETWORK with
         | testnet =>
             ["--peer mc://node1.test.mobilecoin.com/";
              "--peer mc://node2.test.mobilecoin.com/";
              "--tx-source-url https://s3-us-west-1.amazonaws.com/mobilecoin.chain/node1.test.mobilecoin.com/";
              "--tx-source-url https://s3-us-west-1.amazonaws.com/mobilecoin.chain/node2.test.mobilecoin.com/"]
         | mainnet =>
             ["--peer"; "mc://node1.prod.mobilecoinww.com/";
              "--peer"; "mc://node2.prod.mobilecoinww.com/";
              "--tx-source-url"; "https://ledger.mobilecoinww.com/node1.prod.mobilecoinww.com/";
              "--tx-source-url"; "https://ledger.mobilecoinww.com/node2.prod.mobilecoinww.com/"]
         end)
   ++ (if bg then [">"; LOG_LOCATION; "2>&1"] else []))%list.

(** [start]: the actions it performs when none of them raises. [verbose]
    is [self.verbose]. *)
Definition start (verbose offline bg : bool) : list os_action :=
  let wallet_server_command := wallet_server_command offline bg in
  ([Os_print match NETWORK with
             | testnet => "Starting TestNet wallet server..."
             | mainnet => "Starting MobileCoin wallet server..."
             end]
   ++ (if verbose then [Os_print (String.concat " " wallet_server_command)] else [])
   ++ [Os_mkdir MC_DATA true true;
       Os_mkdir (MC_DATA +:+ "/ledger-db") false true;
       Os_mkdir (MC_DATA +:+ "/wallet-db") false true;
       Os_setenv "RUST_LOG" "info";
       Os_setenv "mc_ledger_sync" "info"]
   ++ (if bg then
         [Os_popen_shell (String.concat " " wallet_server_command);
          Os_print ("Started, view log at " +:+ LOG_LOCATION +:+ ".");
          Os_print ("Stop server with " +:+ double_quote +:+ "mobilecoin stop"
                    +:+ double_quote +:+ ".")]
       else [Os_run_shell (String.concat " " wallet_server_command)]))%list.

Definition stop (verbose : bool) : list os_action :=
  ((if verbose then [Os_print "Stopping MobileCoin wallet server..."] else [])
   ++ [Os_popen match NETWORK with
                | testnet => ["killall"; "-v"; "full-service-testnet"]
                | mainnet => ["killall"; "-v"; "full-service"]
                end])%list.
End Server.

(** ** Further vocabulary *)

(** The answers that lower to [y] or [yes]. *)
Definition accepted_answers : list string :=
  ["y"; "Y"; "yes"; "yeS"; "yEs"; "yES"; "Yes"; "YeS"; "YEs"; "YES"].

(** A computation leaves the files and the pending input alone. *)
Definition keeps_files {A} (m : M A) : Prop :=
  forall w, files (snd (m w)) = files w.

Definition is_print (e : event) : bool :=
  match e with
  | Printed _ | PrintedStatus _ _ _ _ | PrintedFormat _ _ _ => true
  | _ => false
  end.

Definition is_status (e : event) : bool :=
  match e with PrintedStatus _ _ _ _ => true | _ => false end.

(** The client calls of [list] for a listing, in order. *)
Definition list_calls (accounts : list (string * account)) : list event :=
  Called Call_get_all_accounts
  :: map (fun entry => Called (Call_get_balance_for_account (fst entry))) accounts.

(** The lines [list] prints for one account. *)
Definition listed_lines (a : account) (b : balance) : list event :=
  [Printed "";
   Printed (slice_to 6 (account_id a) +:+ " " +:+ name a);
   Printed ("  address " +:+ main_address a);
   PrintedStatus (pmob2mob (unspent_pmob b)) (account_block_index b)
     (fst (total_blocks b)) (snd (total_blocks b))].

Definition is_lower_hex (c : ascii) : bool :=
  let n := N_of_ascii c in
  (((48 <=? n) && (n <=? 57)) || ((97 <=? n) && (n <=? 102)))%N.

(** The process name the binary launched by [start] runs under. *)
Definition launched_process (NETWORK : network) (MC_DATA : string) : string :=
  match wallet_server_command NETWORK MC_DATA false false with
  | binary :: _ => String.substring 2 (String.length binary - 2) binary
  | [] => ""
  end.

(** The process name [stop] asks [killall] to end. *)
Definition killed_process (NETWORK : network) : string :=
  match stop NETWORK false with
  | [Os_popen [_; _; process]] => process
  | _ => ""
  end.

(** A wallet client that lists the given accounts and otherwise answers as
    the sample wallet. *)
Definition sample_client_listing (accounts : list (string * account)) : Client := {|
  get_all_accounts := fun _ => Ok accounts;
  get_balance_for_account := get_balance_for_account (Client := sample_client);
  export_account_secrets := export_account_secrets (Client := sample_client);
  delete_account := delete_account (Client := sample_client);
  send_transaction := send_transaction (Client := sample_client);
  import_account := import_account (Client := sample_client);
  build_and_submit_transaction := build_and_submit_transaction (Client := sample_client);
|}.

(** The sample wallet while its server is offline: the network block
    index is reported as zero, the local ledger has nine blocks. *)
Definition sample_client_offline : Client := {|
  get_all_accounts := get_all_accounts (Client := sample_client);
  get_balance_for_account := fun h id =>
    Ok {| unspent_pmob := (if String.eqb id "abc123" then 0 else 5000000000000);
          is_synced := true; account_block_index := 9;
          network_block_index := 0; local_block_index := 9 |};
  export_account_secrets := export_account_secrets (Client := sample_client);
  delete_account := delete_account (Client := sample_client);
  send_transaction := send_transaction (Client := sample_client);
  import_account := import_account (Client := sample_client);
  build_and_submit_transaction := build_and_submit_transaction (Client := sample_client);
|}.

(** A world whose current directory is there under its name, with a file
    of bytes that are not text beside it. *)
Definition world_with_directory : world :=
  {| stdin := [];
     files := {[ "." := Unopenable (IsADirectoryError ".");
                 "photo.jpg" := Unreadable UnicodeDecodeError ]};
     trace := [] |}.

(** A wallet whose second balance query fails. *)
Definition sample_client_failing : Client := {|
  get_all_accounts := get_all_accounts (Client := sample_client);
  get_balance_for_account := fun h id =>
    if (count_balance_calls h =? 0)%nat
    then get_balance_for_account (Client := sample_client) h id
    else Err (ClientError "timeout");
  export_account_secrets := export_account_secrets (Client := sample_client);
  delete_account := delete_account (Client := sample_client);
  send_transaction := send_transaction (Client := sample_client);
  import_account := import_account (Client := sample_client);
  build_and_submit_transaction := build_and_submit_transaction (Client := sample_client);
|}.

(** * Properties *)

(** ** Running a command *)

Ltac unfold_M :=
  unfold run, new_events, mbind, mret, M_bind, M_ret, rpc, print, emit, raise, exit, lift,
    input, confirm, json_dump_to, json_load, open_read, _print_account in *.

Ltac simp :=
  repeat (unfold_M;
          cbn -[String.append String.concat slice_to lower startswith bytes_fromhex
                to_mnemonic to_entropy dict_get total_blocks pmob2mob drop app
                affirmative Decimal_is_zero Decimal_of_float elem_of bool_decide
                py_getitem lookup insert poll_balance_until_synced Z.add Z.leb]);
  repeat rewrite <- app_assoc; cbn [app];
  rewrite ?drop_app_length.

(** One step of execution: a case analysis on what the outside answers. *)
Ltac branch :=
  match goal with
  | |- context [match get_all_accounts ?h with _ => _ end] =>
      destruct (get_all_accounts h) eqn:?
  | |- context [match get_balance_for_account ?h ?i with _ => _ end] =>
      destruct (get_balance_for_account h i) eqn:?
  | |- context [match export_account_secrets ?h ?i with _ => _ end] =>
      destruct (export_account_secrets h i) eqn:?
  | |- context [match delete_account ?h ?i with _ => _ end] =>
      destruct (delete_account h i) eqn:?
  | |- context [match send_transaction ?h ?i ?a ?t with _ => _ end] =>
      destruct (send_transaction h i a t) eqn:?
  | |- context [match import_account ?h ?e ?n ?b with _ => _ end] =>
      destruct (import_account h e n b) eqn:?
  | |- context [match List.filter ?f ?l with _ => _ end] =>
      destruct (List.filter f l) as [|? [|? ?]] eqn:?
  | |- context [match dict_get ?k ?d with _ => _ end] => destruct (dict_get k d) eqn:?
  | |- context [total_blocks ?b] => destruct (total_blocks b) eqn:?
  | |- context [match bytes_fromhex ?s with _ => _ end] => destruct (bytes_fromhex s) eqn:?
  | |- context [match to_mnemonic ?s with _ => _ end] => destruct (to_mnemonic s) eqn:?
  | |- context [bool_decide (lower ?a ∈ _)] =>
      fold (affirmative a); destruct (affirmative a) eqn:?
  | |- context [if is_synced ?b && Decimal_is_zero ?d then _ else _] =>
      destruct (is_synced b) eqn:?; [destruct (Decimal_is_zero d) eqn:?|]
  end.


Lemma new_events_app (w w' : world) (l : list event) :
  trace w' = (trace w ++ l)%list -> new_events w w' = l.
Proof. intros E. unfold new_events. rewrite E. apply drop_app_length. Qed.

(** ** Amount of an empty account *)


(** ** Account resolution *)

Lemma dict_get_elem (k : string) (d : list (string * account)) :
  k ∈ map fst d -> exists a, dict_get k d = Ok a /\ (k, a) ∈ d.
Proof.
  induction d as [|[k' a'] d IH]; cbn; intros Hin.
  - inversion Hin.
  - destruct (String.eqb k k') eqn:E.
    + apply String.eqb_eq in E. subst. exists a'. split; [reflexivity | left].
    + apply String.eqb_neq in E. inversion Hin; subst; [congruence|].
      destruct (IH ltac:(assumption)) as (a & Ha & Hm).
      exists a. split; [assumption | right; assumption].
Qed.

Lemma matching_ids_spec (prefix : string) (ids : list string) (a_id : string) :
  a_id ∈ List.filter (fun a_id => startswith a_id prefix) ids
  <-> a_id ∈ ids /\ startswith a_id prefix = true.
Proof. rewrite !list_elem_of_In, List.filter_In. reflexivity. Qed.

(** C8. The resolver fetches the accounts and keeps the identifiers that
    start with the prefix, in the order of the listing. With none, it prints
    that no account starts with the prefix and exits with status 1 (the
    spec's AccountNotFound); with exactly one, it returns the account
    listed under that identifier; with more than one, it prints all the
    matching identifiers and exits with status 1 (the spec's
    AmbiguousAccount). *)
Theorem resolve_prefix {client : Client} (prefix : string) (w : world)
        (accounts : list (string * account)) :
  get_all_accounts (trace w) = Ok accounts ->
  let matching := List.filter (fun a_id => startswith a_id prefix) (map fst accounts) in
  let resolution := run (CommandLineInterface._load_account_prefix prefix) w in
  (forall a_id, a_id ∈ matching <-> a_id ∈ map fst accounts /\ startswith a_id prefix = true)
  /\ (length matching = 0%nat ->
      resolution = (Exited 1, [Called Call_get_all_accounts;
                               Printed ("Could not find account starting with " +:+ prefix)]))
  /\ (length matching = 1%nat ->
      exists a_id a, matching = [a_id] /\ (a_id, a) ∈ accounts
                     /\ resolution = (Returned a, [Called Call_get_all_accounts]))
  /\ ((1 < length matching)%nat ->
      resolution = (Exited 1, [Called Call_get_all_accounts;
                               Printed ("Multiple matching matching ids: "
                                        +:+ String.concat ", " matching)])).
Proof.
  intros Hacc matching resolution.
  split; [intros a_id; apply matching_ids_spec|].
  subst resolution. unfold CommandLineInterface._load_account_prefix.
  destruct w as [inp fs tr]. cbn [trace] in Hacc. simp. rewrite Hacc. simp.
  fold matching.
  destruct matching as [|a_id [|a_id' rest]] eqn:Em; simp.
  - split; [|split]; intros Hlen; cbn in Hlen; [reflexivity | discriminate | lia].
  - split; [|split]; intros Hlen; cbn in Hlen; [discriminate | | lia].
    exists a_id.
    assert (Hin : a_id ∈ map fst accounts).
    { apply (matching_ids_spec prefix (map fst accounts) a_id).
      fold matching. rewrite Em. left. }
    destruct (dict_get_elem _ _ Hin) as (a & Ha & Hm).
    exists a. rewrite Ha. simp. repeat split; assumption.
  - split; [|split]; intros Hlen; cbn in Hlen; [discriminate | discriminate | reflexivity].
Qed.

Lemma resolve_prefix_witness :
  run (CommandLineInterface._load_account_prefix (client := sample_client) "abc") (empty_world [])
  = (Exited 1, [Called Call_get_all_accounts;
                Printed "Multiple matching matching ids: abc123, abcxyz"])
  /\ (exists a_id a,
        List.filter (fun a_id => startswith a_id "abc1") ["abc123"; "abcxyz"] = [a_id]
        /\ (a_id, a) ∈ [("abc123", sample_account "abc123"); ("abcxyz", sample_account "abcxyz")]
        /\ run (CommandLineInterface._load_account_prefix (client := sample_client) "abc1")
               (empty_world [])
           = (Returned a, [Called Call_get_all_accounts]))
  /\ run (CommandLineInterface._load_account_prefix (client := sample_client) "zzz") (empty_world [])
     = (Exited 1, [Called Call_get_all_accounts;
                   Printed "Could not find account starting with zzz"]).
Proof.
  split; [|split].
  - apply (resolve_prefix (client := sample_client) "abc" (empty_world []) _ eq_refl).
    vm_compute. lia.
  - apply (resolve_prefix (client := sample_client) "abc1" (empty_world []) _ eq_refl).
    reflexivity.
  - apply (resolve_prefix (client := sample_client) "zzz" (empty_world []) _ eq_refl).
    reflexivity.
Defined.

(** ** Block totals *)

Lemma total_blocks_rule (b : balance) :
  total_blocks b
  = (if network_block_index b =? 0 then local_block_index b else network_block_index b,
     network_block_index b =? 0).
Proof. reflexivity. Qed.

(** ** Confirmation before a destructive call *)



(** As the source stands, [send] stops at the [join] call of its first
    message, before the prompt. *)
Lemma send_stops_at_join {client : Client} (prefix : string) (amount : spec_float)
      (to_address : string) (w : world) (a : account) :
  run (CommandLineInterface._load_account_prefix prefix) w
  = (Returned a, [Called Call_get_all_accounts]) ->
  run (CommandLineInterface.send prefix amount to_address) w
  = (Raised TypeError, [Called Call_get_all_accounts]).
Proof.
  destruct w as [inp fs tr].
  unfold CommandLineInterface.send, CommandLineInterface._load_account_prefix.
  simp. repeat (branch; simp); intros E; inversion E; reflexivity.
Qed.


(** [send] is its body at what [str_join] makes of the two arguments. *)
Lemma send_body_is_send {client : Client} (prefix to_address : string) (amount : spec_float) :
  CommandLineInterface.send prefix amount to_address
  = (account ← CommandLineInterface._load_account_prefix prefix;
     CommandLineInterface.send_from_join
       (str_join newline ["Sending {:.4f} MOB from account {} {}"; "to address {}."])
       account amount to_address).
Proof. reflexivity. Qed.

(** The run of the body of [send] when the [join] gives a text. *)
Lemma send_body_run {client : Client} (template to_address : string) (a : account)
      (amount : spec_float) (w : world) :
  let message := PrintedFormat template (Decimal_of_float amount)
                   [slice_to 6 (account_id a); name a; to_address] in
  let sent := Called (Call_send_transaction (account_id a) (Decimal_of_float amount)
                        to_address) in
  run (CommandLineInterface.send_from_join (Ok template) a amount to_address) w
  = match stdin w with
    | [] => (Raised EOFError, [message])
    | answer :: _ =>
        let shown := [message; Prompted "Confirm? (Y/N) " answer] in
        if affirmative answer then
          match send_transaction (trace w ++ shown)%list (account_id a)
                  (Decimal_of_float amount) to_address with
          | Ok _ => (Returned tt, (shown ++ [sent; Printed "Sent."])%list)
          | Err e => (Raised e, (shown ++ [sent])%list)
          end
        else (Returned tt, (shown ++ [Printed "Cancelled."])%list)
    end.
Proof.
  destruct w as [inp fs tr]. cbn [stdin trace]. cbv zeta.
  unfold CommandLineInterface.send_from_join. simp.
  destruct inp as [|answer rest]; simp; [reflexivity|].
  fold (affirmative answer). destruct (affirmative answer); simp; [|reflexivity].
  destruct (send_transaction _ _ _ _); simp; reflexivity.
Qed.





(** ** Waiting for the block after the submitted one *)

Lemma poll_reaches_target {client : Client} (attempts : nat) (a_id : string) (target : Z)
      (w w' : world) (bal : balance) :
  poll_balance_until_synced attempts a_id (Some target) w = (Returned bal, w') ->
  target <= account_block_index bal
  /\ (exists h, get_balance_for_account h a_id = Ok bal)
  /\ exists l, trace w' = (trace w ++ l ++ [Called (Call_get_balance_for_account a_id)])%list.
Proof.
  revert w. induction attempts as [|n IH]; intros [inp fs tr]; cbn [poll_balance_until_synced].
  - simp. discriminate.
  - simp. destruct (get_balance_for_account tr a_id) as [b|e] eqn:Eb; simp; [|discriminate].
    destruct (target <=? account_block_index b) eqn:Et; simp.
    + intros E. inversion E; subst; clear E. cbn [trace].
      split; [lia|]. split; [exists tr; assumption | exists []; reflexivity].
    + intros E. apply IH in E. destruct E as (Ht & Hh & l & Hl).
      split; [assumption|]. split; [assumption|].
      cbn [trace] in *.
      exists ([Called (Call_get_balance_for_account a_id); Slept] ++ l)%list.
      rewrite Hl. rewrite <- !app_assoc. reflexivity.
Qed.

(** Within its bound the poller returns as soon as a reply reaches the
    target, and once the bound is used up it fails with [SyncTimeout]. *)
Lemma poll_returns_at_target {client : Client} (n : nat) (a_id : string) (target : Z)
      (w : world) (bal : balance) :
  get_balance_for_account (trace w) a_id = Ok bal ->
  target <= account_block_index bal ->
  run (poll_balance_until_synced (S n) a_id (Some target)) w
  = (Returned bal, [Called (Call_get_balance_for_account a_id)]).
Proof.
  destruct w as [inp fs tr]. cbn [trace poll_balance_until_synced]. intros Eb Ht.
  simp. rewrite Eb. simp. apply Z.leb_le in Ht. rewrite Ht. simp. reflexivity.
Qed.

Lemma poll_out_of_attempts {client : Client} (a_id : string) (target : option Z) (w : world) :
  poll_balance_until_synced 0 a_id target w = (Raised SyncTimeout, w).
Proof. reflexivity. Qed.

(** C3. When the send-and-confirm sequence returns, after a submission
    that gave block index [b], the balance it returns is a reply of the
    client for the watched account, fetched last, whose account-local index
    is at least [b + 1], whatever network index the replies carried. *)
Theorem confirmed_after_next_block {client : Client} (attempts : nat)
        (source_account_id to_address dest_account_id : string) (amount : Decimal)
        (w w' : world) (b : Z) (bal : balance) :
  build_and_submit_transaction (trace w) source_account_id amount to_address = Ok b ->
  send_and_confirm attempts source_account_id amount to_address dest_account_id w
  = (Returned bal, w') ->
  b + 1 <= account_block_index bal
  /\ (exists h, get_balance_for_account h dest_account_id = Ok bal)
  /\ exists l,
       new_events w w'
       = (Called (Call_build_and_submit_transaction source_account_id amount to_address)
          :: l ++ [Called (Call_get_balance_for_account dest_account_id)])%list.
Proof.
  destruct w as [inp fs tr]. cbn [trace]. intros Eb. unfold send_and_confirm.
  simp. rewrite Eb. simp. intros E.
  apply poll_reaches_target in E. destruct E as (Ht & Hh & l & Hl).
  split; [assumption|]. split; [assumption|].
  exists l. cbn [trace] in Hl. rewrite Hl. rewrite <- app_assoc. cbn [app].
  rewrite drop_app_length. reflexivity.
Qed.

(** The sample wallet: submission at block 10; the first reply still has
    the account at 10 while the network index is 10, the second has it
    at 11. *)
Lemma confirmed_after_next_block_witness :
  10 + 1 <= 11
  /\ (exists h, get_balance_for_account (Client := sample_client) h "abcxyz"
                = Ok (sample_balance 5000000000000 true 11))
  /\ exists l,
       new_events (empty_world [])
         (snd (send_and_confirm (client := sample_client) 5 "abc123" (DFinite (1 # 10))
                 "addr" "abcxyz" (empty_world [])))
       = (Called (Call_build_and_submit_transaction "abc123" (DFinite (1 # 10)) "addr")
          :: l ++ [Called (Call_get_balance_for_account "abcxyz")])%list.
Proof.
  apply (confirmed_after_next_block (client := sample_client) 5 "abc123" "addr" "abcxyz"
           (DFinite (1 # 10)) (empty_world []) _ 10 (sample_balance 5000000000000 true 11)).
  - reflexivity.
  - vm_compute. reflexivity.
Defined.

(** ** Hexadecimal seeds *)

Lemma hexval_facts (c : ascii) (h : N) :
  hexval c = Some h -> is_space c = false /\ (h < 16)%N.
Proof.
  destruct c as [[] [] [] [] [] [] [] []]; cbn; intros E; inversion E;
    split; reflexivity.
Qed.

Lemma byte_of_hex_digits (hi lo : N) :
  (hi < 16)%N -> (lo < 16)%N -> exists b, Byte.of_N (16 * hi + lo) = Some b.
Proof.
  intros Hhi Hlo. destruct (Byte.of_N (16 * hi + lo)) as [b|] eqn:E; [exists b; reflexivity|].
  apply Byte.of_N_None_iff in E. lia.
Qed.

Lemma fromhex_all_hex (n : nat) (s : string) :
  String.length s = (2 * n)%nat ->
  forallb is_hex_digit (list_ascii_of_string s) = true ->
  exists b, bytes_fromhex s = Some b /\ length b = n.
Proof.
  revert s. induction n as [|n IH]; intros s Hlen Hhex.
  - destruct s; [exists []; split; reflexivity | discriminate].
  - destruct s as [|c [|d r]]; try (cbn in Hlen; lia).
    cbn in Hlen, Hhex. apply andb_prop in Hhex as [Hc Hhex].
    apply andb_prop in Hhex as [Hd Hhex]. unfold is_hex_digit in Hc, Hd.
    destruct (hexval c) as [hi|] eqn:Ec; [|discriminate].
    destruct (hexval d) as [lo|] eqn:Ed; [|discriminate].
    destruct (hexval_facts _ _ Ec) as [Hsp Hhi]. destruct (hexval_facts _ _ Ed) as [_ Hlo].
    destruct (byte_of_hex_digits hi lo Hhi Hlo) as [b Hb].
    destruct (IH r ltac:(lia) Hhex) as (bs & Hbs & Hl).
    exists (b :: bs). cbn [bytes_fromhex]. rewrite Hsp, Ec, Ed, Hb, Hbs.
    split; [reflexivity | cbn; lia].
Qed.

Lemma fromhex_count_below (n : nat) (s : string) (b : list byte) :
  (String.length s < n)%nat -> bytes_fromhex s = Some b ->
  nonspace_count s = (2 * length b)%nat.
Proof.
  revert s b. induction n as [|n IH]; intros s b Hlen E; [lia|].
  destruct s as [|c r]; cbn [bytes_fromhex nonspace_count] in *.
  - inversion E. reflexivity.
  - destruct (is_space c) eqn:Hsp.
    + apply IH; [cbn in Hlen; lia | assumption].
    + destruct r as [|d r']; [discriminate|].
      destruct (hexval c) as [hi|]; [|discriminate].
      destruct (hexval d) as [lo|] eqn:Ed; [|discriminate].
      destruct (Byte.of_N (16 * hi + lo)) as [x|]; [|discriminate].
      destruct (bytes_fromhex r') as [bs|] eqn:Er; [|discriminate].
      inversion E; subst. cbn [nonspace_count length].
      destruct (hexval_facts _ _ Ed) as [Hd _]. rewrite Hd.
      rewrite (IH r' bs); [lia | cbn in Hlen; lia | assumption].
Qed.

Lemma fromhex_count (s : string) (b : list byte) :
  bytes_fromhex s = Some b -> nonspace_count s = (2 * length b)%nat.
Proof. apply (fromhex_count_below (S (String.length s))). lia. Qed.

Lemma byte_hex_fromhex (b : byte) (r : string) :
  bytes_fromhex (byte_hex b +:+ r)
  = match bytes_fromhex r with Some bs => Some (b :: bs) | None => None end.
Proof. destruct b; reflexivity. Qed.

(** The hexadecimal text of bytes decodes to the same bytes. *)
Lemma fromhex_bytes_hex (l : list byte) : bytes_fromhex (bytes_hex l) = Some l.
Proof.
  induction l as [|b l IH]; [reflexivity|].
  cbn [bytes_hex]. rewrite byte_hex_fromhex, IH. reflexivity.
Qed.

Section SeedProperties.
Context {bip39 : Bip39}.

Lemma load_import_hex (seed : string) (b : list byte) (w : world) :
  bytes_fromhex seed = Some b -> length b = 32%nat ->
  _load_import seed w = (Returned (PStr (bytes_hex b), PNone), w).
Proof.
  intros E Hl. unfold _load_import. rewrite E, Hl. reflexivity.
Qed.

Lemma load_import_not_hex (seed : string) (w : world) :
  is_hex_form seed = false -> _load_import seed w = _load_import_mnemonic seed w.
Proof.
  unfold is_hex_form, _load_import. destruct (bytes_fromhex seed); [|reflexivity].
  intros ->. reflexivity.
Qed.

Lemma to_entropy_errors (seed : string) (e : exn) :
  to_entropy seed = Err e -> e = ValueError \/ e = LookupError.
Proof.
  unfold to_entropy. destruct (negb _); [intros E; inversion E; auto|].
  destruct (mapM _ _); [|intros E; inversion E; auto].
  destruct (bool_decide _); intros E; inversion E; auto.
Qed.

Lemma load_import_mnemonic_ok (seed : string) (ent : list byte) (w : world) :
  to_entropy seed = Ok ent ->
  run (_load_import_mnemonic seed) w
  = (Returned (PStr (bytes_hex ent), PNone), [MnemonicToEntropy seed]).
Proof.
  intros E. destruct w as [inp fs tr]. unfold _load_import_mnemonic. simp.
  rewrite E. simp. reflexivity.
Qed.

Lemma load_import_file_run (seed : string) (w : world) :
  run (_load_import_file seed) w = (recovery_file_outcome seed w, [Opened seed]).
Proof.
  destruct w as [inp fs tr]. unfold _load_import_file, recovery_file_outcome. simp.
  destruct (fs !! seed) as [[data|raw|e0|e0]|]; simp; try reflexivity.
  destruct (py_getitem data "root_entropy"); simp; [|reflexivity].
  destruct (py_getitem data "first_block_index"); simp; reflexivity.
Qed.

Lemma load_import_mnemonic_err (seed : string) (e : exn) (w : world) :
  to_entropy seed = Err e ->
  run (_load_import_mnemonic seed) w
  = (recovery_file_outcome seed w, [MnemonicToEntropy seed; Opened seed]).
Proof.
  intros E. destruct w as [inp fs tr].
  unfold _load_import_mnemonic, _load_import_file, recovery_file_outcome. simp. rewrite E.
  destruct (to_entropy_errors _ _ E) as [-> | ->]; simp.
  all: destruct (fs !! seed) as [[data|raw|e0|e0]|]; simp; try reflexivity.
  all: destruct (py_getitem data "root_entropy"); simp; [|reflexivity].
  all: destruct (py_getitem data "first_block_index"); simp; reflexivity.
Qed.

Lemma not_mnemonic_form (seed : string) :
  is_hex_form seed = false -> is_mnemonic_form seed = false ->
  exists e, to_entropy seed = Err e.
Proof.
  unfold is_mnemonic_form. intros ->. cbn.
  destruct (to_entropy seed) as [ent|e]; [discriminate | exists e; reflexivity].
Qed.
End SeedProperties.

(** A seed that is neither hexadecimal text of 32 bytes nor a mnemonic is
    read as a file name, once. *)
Lemma load_import_file_form {bip39 : Bip39} (seed : string) (w : world) :
  is_hex_form seed = false -> is_mnemonic_form seed = false ->
  run (_load_import seed) w
  = (recovery_file_outcome seed w, [MnemonicToEntropy seed; Opened seed]).
Proof.
  intros Hhex Hmn. destruct (not_mnemonic_form seed Hhex Hmn) as [e He].
  unfold run. rewrite (load_import_not_hex seed w Hhex).
  apply (load_import_mnemonic_err seed e w He).
Qed.

(** One word is never a mnemonic, whatever the word list. *)
Lemma single_word_not_mnemonic {bip39 : Bip39} : to_entropy "zzz" = Err ValueError.
Proof. reflexivity. Qed.

(** C4. A seed of 64 hexadecimal digits decodes to 32 bytes, and the
    decoder returns the hexadecimal text of those bytes with no starting
    block, leaving the world as it was: the mnemonic package is not called
    and no file is opened, whatever the word list. A seed that is valid
    hexadecimal text of another length goes on to the mnemonic attempt. *)
Theorem hex_seed_precedence {bip39 : Bip39} (seed : string) (w : world) :
  (String.length seed = 64%nat ->
   forallb is_hex_digit (list_ascii_of_string seed) = true ->
   exists b, bytes_fromhex seed = Some b /\ length b = 32%nat
             /\ _load_import seed w = (Returned (PStr (bytes_hex b), PNone), w)
             /\ bytes_fromhex (bytes_hex b) = Some b)
  /\ (forall b, bytes_fromhex seed = Some b -> length b <> 32%nat ->
                _load_import seed w = _load_import_mnemonic seed w).
Proof.
  split.
  - intros Hlen Hhex. destruct (fromhex_all_hex 32 seed Hlen Hhex) as (b & Hb & Hl).
    exists b. repeat split; try assumption.
    + apply load_import_hex; assumption.
    + apply fromhex_bytes_hex.
  - intros b Hb Hl. apply load_import_not_hex. unfold is_hex_form. rewrite Hb.
    apply Nat.eqb_neq. assumption.
Qed.

Lemma hex_seed_precedence_witness :
  (exists b,
      bytes_fromhex "00000000000000000000000000000000000000000000000000000000000000ff"
      = Some b
      /\ length b = 32%nat
      /\ _load_import (bip39 := sample_bip39)
           "00000000000000000000000000000000000000000000000000000000000000ff"
           (empty_world [])
         = (Returned (PStr (bytes_hex b), PNone), empty_world [])
      /\ bytes_fromhex (bytes_hex b) = Some b)
  /\ _load_import (bip39 := sample_bip39) "cafe" (empty_world [])
     = _load_import_mnemonic (bip39 := sample_bip39) "cafe" (empty_world []).
Proof.
  split.
  - apply (hex_seed_precedence (bip39 := sample_bip39)); reflexivity.
  - apply (proj2 (hex_seed_precedence (bip39 := sample_bip39) "cafe" (empty_world []))
             ["202"%byte; "254"%byte]).
    + reflexivity.
    + cbn. lia.
Defined.

(** C5, as amended. A seed that is neither 32 bytes of hexadecimal text
    nor a valid mnemonic is tried once as a recovery file, and nothing
    follows that attempt. When the attempt fails, the decoder fails with
    the exception of the failing step, as that step raised it: the
    exception of [open] when the name cannot be opened
    ([FileNotFoundError] when the file system holds no such name,
    otherwise whatever the file system gives, such as [IsADirectoryError],
    [PermissionError] or [OSError]), the exception of the read when the
    content is not text ([UnicodeDecodeError]), [JSONDecodeError] when the
    text is not JSON, [KeyError] with the name of the first missing field
    when the document is an object without it, [TypeError] when the
    document is not an object. Otherwise it returns the two fields. *)
Theorem rejected_seed_raises {bip39 : Bip39} (seed : string) (w : world) :
  is_hex_form seed = false -> is_mnemonic_form seed = false ->
  run (_load_import seed) w
  = (recovery_file_outcome seed w, [MnemonicToEntropy seed; Opened seed])
  /\ (forall e, fst (run (_load_import seed) w) = Raised e ->
        (files w !! seed = None /\ e = FileNotFoundError seed)
        \/ files w !! seed = Some (Unopenable e)
        \/ files w !! seed = Some (Unreadable e)
        \/ (exists raw, files w !! seed = Some (OtherText raw) /\ e = JSONDecodeError)
        \/ (exists data, files w !! seed = Some (JsonText data)
                         /\ ((forall d, data <> PDict d) /\ e = TypeError
                             \/ exists d, data = PDict d
                                          /\ (assoc "root_entropy" d = None
                                              /\ e = KeyError "root_entropy"
                                              \/ assoc "root_entropy" d <> None
                                                 /\ assoc "first_block_index" d = None
                                                 /\ e = KeyError "first_block_index"))))
  /\ (forall root_entropy first_block,
        fst (run (_load_import seed) w) = Returned (root_entropy, first_block) <->
        exists d, files w !! seed = Some (JsonText (PDict d))
                  /\ assoc "root_entropy" d = Some root_entropy
                  /\ assoc "first_block_index" d = Some first_block).
Proof.
  intros Hhex Hmn. rewrite (load_import_file_form seed w Hhex Hmn). cbn [fst].
  split; [reflexivity|]. unfold recovery_file_outcome, py_getitem. split.
  - intros x. destruct (files w !! seed) as [[data|raw|e0|e0]|].
    + intros E. do 4 right. exists data. split; [reflexivity|].
      destruct data as [| | | | |d]; try (inversion E; left; split; [congruence | reflexivity]).
      right. exists d. split; [reflexivity|].
      destruct (assoc "root_entropy" d); [|inversion E; left; split; reflexivity].
      destruct (assoc "first_block_index" d); inversion E.
      right. repeat split; congruence.
    + intros E; inversion E. do 3 right. left. exists raw. split; reflexivity.
    + intros E; inversion E. do 2 right. left. reflexivity.
    + intros E; inversion E. right. left. reflexivity.
    + intros E; inversion E. left. split; reflexivity.
  - intros root_entropy first_block. split.
    + destruct (files w !! seed) as [[data|raw|e0|e0]|]; try discriminate.
      destruct data as [| | | | |d]; try discriminate.
      destruct (assoc "root_entropy" d) as [v|] eqn:Er; [|discriminate].
      destruct (assoc "first_block_index" d) as [v'|] eqn:Eb; [|discriminate].
      intros E; inversion E; subst. exists d. repeat split; assumption.
    + intros (d & -> & -> & ->). reflexivity.
Qed.

(** The current directory, seed [.]: not hexadecimal, not a mnemonic, and
    [open] refuses it with [IsADirectoryError], which the decoder lets
    through. *)
Lemma rejected_seed_raises_witness :
  run (_load_import (bip39 := sample_bip39) ".") world_with_directory
  = (Raised (IsADirectoryError "."), [MnemonicToEntropy "."; Opened "."])
  /\ run (_load_import (bip39 := sample_bip39) "photo.jpg") world_with_directory
     = (Raised UnicodeDecodeError, [MnemonicToEntropy "photo.jpg"; Opened "photo.jpg"]).
Proof.
  split.
  - apply (rejected_seed_raises (bip39 := sample_bip39) "." world_with_directory);
      vm_compute; reflexivity.
  - apply (rejected_seed_raises (bip39 := sample_bip39) "photo.jpg" world_with_directory);
      vm_compute; reflexivity.
Defined.

(** C5, as stated, fails: the seed [zzz] is not hexadecimal text, is not a
    mnemonic and names no file, and the decoder fails with
    [FileNotFoundError], not with an error named InvalidSeed. *)
Lemma rejected_seed_not_InvalidSeed :
  is_hex_form "zzz" = false
  /\ is_mnemonic_form (bip39 := sample_bip39) "zzz" = false
  /\ files (empty_world []) !! "zzz" = None
  /\ run (_load_import (bip39 := sample_bip39) "zzz") (empty_world [])
     = (Raised (FileNotFoundError "zzz"), [MnemonicToEntropy "zzz"; Opened "zzz"])
  /\ exn_name (FileNotFoundError "zzz") <> "InvalidSeed".
Proof. repeat split; try (vm_compute; reflexivity). discriminate. Qed.

(** ** The starting block of an import *)

Lemma starting_block_rule (block file_block : pyval) :
  (if is_None block && negb (is_None file_block) then file_block else block)
  = spec_starting_block block file_block.
Proof. destruct block, file_block; reflexivity. Qed.

Lemma import_call {bip39 : Bip39} {client : Client} (seed : string) (name block : pyval)
      (w w1 : world) (entropy file_block : pyval) :
  _load_import seed w = (Returned (entropy, file_block), w1) ->
  exists rest,
    trace (snd (CommandLineInterface.import_ seed name block w))
    = (trace w1
       ++ Called (Call_import_account entropy name (spec_starting_block block file_block))
       :: rest)%list
    /\ existsb (is_call is_import_call) rest = false.
Proof.
  intros E. unfold CommandLineInterface.import_. unfold mbind at 1. unfold M_bind at 1.
  rewrite E. rewrite starting_block_rule. destruct w1 as [inp fs tr]. simp.
  repeat (branch; simp); eexists; (split; [reflexivity|reflexivity]).
Qed.

(** C10. [import_] makes one [import_account] call, right after decoding
    the seed, and the block it passes is the explicit block when there is
    one and otherwise the block the decoder found. The decoder finds none
    in a hexadecimal or mnemonic seed, and for a recovery file it finds the
    file's [first_block_index]. *)
Theorem import_block_precedence {bip39 : Bip39} {client : Client}
        (seed : string) (name block : pyval) (w : world) :
  (forall entropy file_block w1,
      _load_import seed w = (Returned (entropy, file_block), w1) ->
      (exists rest,
          trace (snd (CommandLineInterface.import_ seed name block w))
          = (trace w1
             ++ Called (Call_import_account entropy name
                          (spec_starting_block block file_block))
             :: rest)%list
          /\ existsb (is_call is_import_call) rest = false)
      /\ (block <> PNone -> spec_starting_block block file_block = block)
      /\ (block = PNone -> spec_starting_block block file_block = file_block)
      /\ (is_hex_form seed || is_mnemonic_form seed = true -> file_block = PNone)
      /\ (is_hex_form seed || is_mnemonic_form seed = false ->
          exists data, files w !! seed = Some (JsonText data)
                       /\ py_getitem data "first_block_index" = Ok file_block)).
Proof.
  intros entropy file_block w1 E. split; [|split; [|split; [|split]]].
  - apply import_call. assumption.
  - destruct block; try reflexivity. congruence.
  - intros ->. reflexivity.
  - intros Hform. unfold is_mnemonic_form in Hform.
    destruct (is_hex_form seed) eqn:Hhex; cbn in Hform.
    + unfold is_hex_form in Hhex. destruct (bytes_fromhex seed) as [b|] eqn:Eb; [|discriminate].
      apply Nat.eqb_eq in Hhex. rewrite (load_import_hex seed b w Eb Hhex) in E.
      congruence.
    + destruct (to_entropy seed) as [ent|] eqn:Ee; [|discriminate].
      pose proof (load_import_mnemonic_ok seed ent w Ee) as Hrun.
      unfold run in Hrun. rewrite <- (load_import_not_hex seed w Hhex) in Hrun.
      rewrite E in Hrun. cbn [fst] in Hrun. congruence.
  - intros Hform. apply orb_false_elim in Hform as [Hhex Hmn].
    pose proof (load_import_file_form seed w Hhex Hmn) as Hrun.
    unfold run in Hrun. rewrite E in Hrun. cbn [fst] in Hrun.
    assert (Ho : recovery_file_outcome seed w = Returned (entropy, file_block)) by congruence.
    unfold recovery_file_outcome in Ho.
    destruct (files w !! seed) as [[data|raw|e0|e0]|]; try discriminate.
    exists data. split; [reflexivity|].
    destruct (py_getitem data "root_entropy"); [|discriminate].
    destruct (py_getitem data "first_block_index"); [|discriminate].
    congruence.
Qed.

(** No explicit block and a recovery file whose [first_block_index] is 7:
    the import call carries 7. *)
Lemma import_block_precedence_witness :
  exists rest,
    trace (snd (CommandLineInterface.import_ (bip39 := sample_bip39)
                  (client := sample_client) "wallet.json" PNone PNone
                  world_with_recovery_file))
    = ([MnemonicToEntropy "wallet.json"; Opened "wallet.json"]
       ++ Called (Call_import_account (PStr zero_entropy_hex) PNone
                    (spec_starting_block PNone (PInt 7)))
       :: rest)%list
    /\ existsb (is_call is_import_call) rest = false.
Proof.
  apply (import_block_precedence (bip39 := sample_bip39) (client := sample_client)
           "wallet.json" PNone PNone world_with_recovery_file
           (PStr zero_entropy_hex) (PInt 7)
           {| stdin := []; files := files world_with_recovery_file;
              trace := [MnemonicToEntropy "wallet.json"; Opened "wallet.json"] |}).
  vm_compute. reflexivity.
Defined.

(** ** Amounts *)

Lemma pmob_round_trip (n : Z) : mob2pmob (pmob2mob n) = Some n.
Proof.
  unfold mob2pmob, pmob2mob.
  assert (E : Qred ((n # 1000000000000) * (1000000000000 # 1)) = n # 1).
  { rewrite (Qred_complete _ (n # 1)).
    - apply Qcanon.Qred_identity. cbn. apply Z.gcd_1_r.
    - unfold Qeq. cbn. lia. }
  rewrite E. reflexivity.
Qed.

(** The decimal made of a float is an integer over a power of two. *)
Lemma float_amount_dyadic (x : spec_float) (q : Q) :
  Decimal_of_float x = DFinite q -> dyadic q.
Proof.
  destruct x as [s|s| |s m e]; cbn; intros E; inversion E; subst; clear E.
  - exists 0, 0%nat. reflexivity.
  - set (sm := cond_Zopp s (Z.pos m)).
    assert (H2 : ~ (2 == 0)%Q) by discriminate.
    destruct (Z.le_gt_cases 0 e) as [He|He].
    + exists (sm * 2 ^ e), 0%nat. cbn [Z.of_nat]. change (2 ^ 0) with 1.
      rewrite Qmult_1_r, inject_Z_mult, (Zpower_Qpower 2 e He). reflexivity.
    + exists sm, (Z.to_nat (- e)). rewrite Z2Nat.id by lia.
      rewrite (Zpower_Qpower 2 (- e)) by lia.
      rewrite <- Qmult_assoc, <- (Qpower_plus 2 e (- e) H2).
      rewrite Z.add_opp_diag_r. cbn. apply Qmult_1_r.
Qed.

(** An integer over a power of two that is also [coef] over ten to the
    [frac]: then five to the [frac] divides [coef]. *)
Lemma dyadic_decimal (q : Q) (coef : Z) (frac : nat) :
  dyadic q -> q == inject_Z coef / inject_Z (10 ^ Z.of_nat frac) ->
  (5 ^ Z.of_nat frac | coef).
Proof.
  intros (z & k & Hz) Hq. rewrite Hq in Hz.
  assert (Ht : ~ inject_Z (10 ^ Z.of_nat frac) == 0%Q).
  { change 0%Q with (inject_Z 0). rewrite inject_Z_injective.
    pose proof (Z.pow_pos_nonneg 10 (Z.of_nat frac)). lia. }
  assert (E : (inject_Z coef * inject_Z (2 ^ Z.of_nat k)
               == inject_Z z * inject_Z (10 ^ Z.of_nat frac))%Q).
  { rewrite <- Hz. field. exact Ht. }
  rewrite <- !inject_Z_mult, inject_Z_injective in E.
  apply (Z.gauss _ (2 ^ Z.of_nat k)).
  - exists (z * 2 ^ Z.of_nat frac). rewrite (Z.mul_comm _ coef), E.
    replace 10 with (5 * 2) by reflexivity. rewrite Z.pow_mul_l. ring.
  - apply Z.coprime_pow_l; [lia|]. apply Z.coprime_pow_r; [lia|]. reflexivity.
Qed.

Lemma typed_amount_exact_only_if (text : string) (d d' : Decimal) :
  typed_amount text = Some d -> Decimal_of_literal text = Some d' ->
  Decimal_eqb d d' = true ->
  exists coef digits frac,
    literal_digits text false 0 0 0 = Some (coef, digits, frac)
    /\ (5 ^ Z.of_nat frac | coef).
Proof.
  unfold typed_amount, Decimal_of_literal. intros Ht Hl Heq.
  destruct (float_of_literal text) as [x|] eqn:Ex; [|discriminate].
  cbn in Ht. inversion Ht; subst d; clear Ht.
  destruct (literal_digits text false 0 0 0) as [[[coef digits] frac]|]; [|discriminate].
  exists coef, digits, frac. split; [reflexivity|].
  destruct (bool_decide _); [|discriminate]. inversion Hl; subst d'; clear Hl.
  destruct (Decimal_of_float x) as [q| |] eqn:Eq; try discriminate.
  cbn in Heq. apply Qeq_bool_eq in Heq.
  apply (dyadic_decimal q); [|assumption].
  apply (float_amount_dyadic x). assumption.
Qed.

(** C2, as amended. Between the smallest unit and the display unit the
    conversion is exact at 10^12 to one: converting there and back gives
    every integer back, and 100000000000 smallest units are 0.1. On the
    way from the command line there is binary floating point: the amount
    [send] works with is the decimal made of the float that [argparse]
    made of the text, so it is an integer over a power of two, and it is
    the typed decimal only if the typed digits, read as one integer, are
    a multiple of five to the number of digits after the point (as for
    0.5, and not for 0.1). [send] is its body at the result of the [join]
    of its message; for whatever text that [join] gives, the body shows
    this very decimal in the message and, after a yes, passes it with the
    full identifier of the account and the address to
    [send_transaction]. *)
Theorem amount_conversion {client : Client} (n : Z) (prefix to_address : string)
        (amount : spec_float) :
  mob2pmob (pmob2mob n) = Some n
  /\ Decimal_eqb (pmob2mob 100000000000) (DFinite (1 # 10)) = true
  /\ (forall q, Decimal_of_float amount = DFinite q -> dyadic q)
  /\ (forall text d d',
        typed_amount text = Some d -> Decimal_of_literal text = Some d' ->
        Decimal_eqb d d' = true ->
        exists coef digits frac,
          literal_digits text false 0 0 0 = Some (coef, digits, frac)
          /\ (5 ^ Z.of_nat frac | coef))
  /\ CommandLineInterface.send prefix amount to_address
     = (account ← CommandLineInterface._load_account_prefix prefix;
        CommandLineInterface.send_from_join
          (str_join newline ["Sending {:.4f} MOB from account {} {}"; "to address {}."])
          account amount to_address)
  /\ (forall template a w answer rest,
        stdin w = answer :: rest -> affirmative answer = true ->
        exists tail,
          snd (run (CommandLineInterface.send_from_join (Ok template) a amount to_address) w)
          = ([PrintedFormat template (Decimal_of_float amount)
                [slice_to 6 (account_id a); name a; to_address];
              Prompted "Confirm? (Y/N) " answer;
              Called (Call_send_transaction (account_id a) (Decimal_of_float amount)
                        to_address)] ++ tail)%list
          /\ (tail = [] \/ tail = [Printed "Sent."])).
Proof.
  split; [apply pmob_round_trip|]. split; [reflexivity|].
  split; [apply float_amount_dyadic|]. split; [apply typed_amount_exact_only_if|].
  split; [reflexivity|].
  intros template a w answer rest Hin Hyes. rewrite send_body_run. cbv zeta.
  rewrite Hin, Hyes. destruct (send_transaction _ _ _ _); cbn [snd app].
  - exists [Printed "Sent."]. split; [reflexivity | right; reflexivity].
  - exists []. split; [reflexivity | left; reflexivity].
Qed.

(** The text [0.5] reaches the body of [send] as one half, and after a yes
    one half is what the call carries. *)
Lemma amount_conversion_witness :
  (exists coef digits frac,
      literal_digits "0.5" false 0 0 0 = Some (coef, digits, frac)
      /\ (5 ^ Z.of_nat frac | coef))
  /\ exists tail,
       snd (run (CommandLineInterface.send_from_join (client := sample_client)
                   (Ok "Sending") (sample_account "abcxyz")
                   (S754_finite false 4503599627370496 (-53)) "addr")
              (empty_world ["y"]))
       = ([PrintedFormat "Sending"
             (Decimal_of_float (S754_finite false 4503599627370496 (-53)))
             [slice_to 6 (account_id (sample_account "abcxyz"));
              name (sample_account "abcxyz"); "addr"];
           Prompted "Confirm? (Y/N) " "y";
           Called (Call_send_transaction (account_id (sample_account "abcxyz"))
                     (Decimal_of_float (S754_finite false 4503599627370496 (-53)))
                     "addr")] ++ tail)%list
       /\ (tail = [] \/ tail = [Printed "Sent."]).
Proof.
  split.
  - apply (proj1 (proj2 (proj2 (proj2
             (amount_conversion (client := sample_client) 0 "abcx" "addr"
                (S754_finite false 4503599627370496 (-53))))))
             "0.5" (DFinite (4503599627370496 # 9007199254740992))
             (DFinite (inject_Z 5 / inject_Z 10)));
      vm_compute; reflexivity.
  - apply (proj2 (proj2 (proj2 (proj2 (proj2
             (amount_conversion (client := sample_client) 0 "abcx" "addr"
                (S754_finite false 4503599627370496 (-53)))))))
             "Sending" (sample_account "abcxyz") (empty_world ["y"]) "y" []);
      reflexivity.
Defined.

(** C2, as stated, fails on the way from the command line: the text [0.1]
    reaches [send] as the binary64 float nearest to it, and the decimal
    made of that float is
    0.1000000000000000055511151231257827021181583404541015625, not 0.1. *)
Lemma typed_amount_is_not_exact :
  float_of_literal "0.1" = Some (S754_finite false 7205759403792794 (-56))
  /\ Decimal_of_literal "0.1" = Some (DFinite (inject_Z 1 / inject_Z 10))
  /\ Decimal_eqb (Decimal_of_float (S754_finite false 7205759403792794 (-56)))
       (DFinite (inject_Z 1 / inject_Z 10)) = false
  /\ Decimal_eqb (Decimal_of_float (S754_finite false 7205759403792794 (-56)))
       (DFinite (1000000000000000055511151231257827021181583404541015625
                 # 10000000000000000000000000000000000000000000000000000000)) = true.
Proof. repeat split; vm_compute; reflexivity. Qed.

(** ** Bit strings *)

Lemma bits_le_of_bits (l : list bool) : bits_le (length l) (N_of_bits_le l) = l.
Proof.
  induction l as [|b l IH]; [reflexivity|].
  cbn [length bits_le N_of_bits_le].
  rewrite N.odd_add_mul_2, N.div2_div, N.add_b2n_double_div2, IH.
  destruct b; reflexivity.
Qed.

Lemma N_of_bits_le_bound (l : list bool) : (N_of_bits_le l < 2 ^ N.of_nat (length l))%N.
Proof.
  induction l as [|b l IH]; [cbn; lia|].
  cbn [length N_of_bits_le]. rewrite Nat2N.inj_succ, N.pow_succ_r'.
  destruct b; cbn [N.b2n]; lia.
Qed.

Lemma bits_of_nat_of_bits (g : list bool) : bits_of_nat (length g) (nat_of_bits g) = g.
Proof.
  unfold bits_of_nat, nat_of_bits. rewrite N2Nat.id.
  rewrite <- (length_rev g), bits_le_of_bits. apply rev_involutive.
Qed.

Lemma nat_of_bits_bound (g : list bool) :
  (length g <= 11)%nat -> (nat_of_bits g < 2048)%nat.
Proof.
  intros Hl. unfold nat_of_bits.
  pose proof (N_of_bits_le_bound (rev g)) as Hb. rewrite length_rev in Hb.
  assert (2 ^ N.of_nat (length g) <= 2 ^ 11)%N by (apply N.pow_le_mono_r; lia).
  change (2 ^ 11)%N with 2048%N in *. lia.
Qed.

Lemma length_bits_of_byte (b : byte) : length (bits_of_byte b) = 8%nat.
Proof.
  unfold bits_of_byte.
  destruct (Byte.to_bits b) as (b0 & b1 & b2 & b3 & b4 & b5 & b6 & b7). reflexivity.
Qed.

Lemma byte_of_bits_of_byte (b : byte) : byte_of_bits (bits_of_byte b) = b.
Proof.
  unfold byte_of_bits, bits_of_byte.
  destruct (Byte.to_bits b) as (b0 & b1 & b2 & b3 & b4 & b5 & b6 & b7) eqn:E.
  cbn [nth]. rewrite <- E. apply Byte.of_bits_to_bits.
Qed.

Lemma length_bits_of_bytes (l : list byte) : length (bits_of_bytes l) = (8 * length l)%nat.
Proof.
  induction l as [|b l IH]; [reflexivity|].
  unfold bits_of_bytes in *. cbn [flat_map length].
  rewrite length_app, length_bits_of_byte, IH. lia.
Qed.

Lemma bytes_of_bits_of_bytes (l : list byte) (rest : list bool) :
  bytes_of_bits (length l) (bits_of_bytes l ++ rest) = l.
Proof.
  induction l as [|b l IH]; [reflexivity|].
  unfold bits_of_bytes in *. cbn [flat_map length bytes_of_bits].
  rewrite <- app_assoc.
  rewrite (take_app_length' (bits_of_byte b)) by (symmetry; apply length_bits_of_byte).
  rewrite (drop_app_length' (bits_of_byte b)) by (symmetry; apply length_bits_of_byte).
  rewrite byte_of_bits_of_byte, IH. reflexivity.
Qed.

Lemma chunks_length {A} (size n : nat) (l : list A) :
  Forall (fun g => (length g <= size)%nat) (chunks size n l).
Proof.
  revert l. induction n as [|n IH]; intros l; cbn [chunks]; constructor.
  - rewrite length_take. lia.
  - apply IH.
Qed.

Lemma chunks_exact {A} (size n : nat) (l : list A) :
  length l = (n * size)%nat ->
  Forall (fun g => length g = size) (chunks size n l) /\ concat (chunks size n l) = l.
Proof.
  revert l. induction n as [|n IH]; intros l Hl; cbn [chunks].
  - destruct l; [split; [constructor | reflexivity] | discriminate].
  - destruct (IH (drop size l)) as [Hf Hc]; [rewrite length_drop; lia|].
    split.
    + constructor; [rewrite length_take; lia | assumption].
    + cbn [concat]. rewrite Hc. apply take_drop.
Qed.

(** ** Words *)

Lemma index_of_lookup (l : list string) (i : nat) (w : string) :
  distinct l = true -> l !! i = Some w -> index_of w l = Some i.
Proof.
  revert i. induction l as [|x l IH]; intros i Hd Hi; [discriminate|].
  cbn [distinct] in Hd. apply andb_prop in Hd as [Hx Hd].
  destruct i as [|i]; cbn in Hi.
  - inversion Hi; subst. cbn [index_of]. rewrite String.eqb_refl. reflexivity.
  - cbn [index_of]. destruct (String.eqb w x) eqn:E.
    + apply String.eqb_eq in E. subst x.
      apply negb_true_iff in Hx.
      assert (Hex : existsb (String.eqb w) l = true).
      { apply existsb_exists. exists w. split; [|apply String.eqb_refl].
        apply list_elem_of_In. eapply list_elem_of_lookup_2. eassumption. }
      congruence.
    + rewrite (IH i Hd Hi). reflexivity.
Qed.

Lemma index_of_long (l : list string) (w : string) :
  forallb word_ok l = true -> (8 < String.length w)%nat -> index_of w l = None.
Proof.
  intros Hl Hw. induction l as [|x l IH]; [reflexivity|].
  cbn [forallb] in Hl. apply andb_prop in Hl as [Hx Hl].
  cbn [index_of]. destruct (String.eqb w x) eqn:E.
  - apply String.eqb_eq in E. subst x. unfold word_ok in Hx.
    apply andb_prop in Hx as [Hx _]. apply bool_decide_eq_true in Hx. lia.
  - rewrite (IH Hl). reflexivity.
Qed.

Lemma append_cons (c : ascii) (w r : string) : String c w +:+ r = String c (w +:+ r).
Proof. reflexivity. Qed.

Lemma append_empty (r : string) : "" +:+ r = r.
Proof. reflexivity. Qed.

Lemma append_empty_r (w : string) : w +:+ "" = w.
Proof.
  induction w as [|c w IH]; [reflexivity|]. rewrite append_cons, IH. reflexivity.
Qed.

Lemma concat_cons2 (sep w w' : string) (ws : list string) :
  String.concat sep (w :: w' :: ws) = w +:+ sep +:+ String.concat sep (w' :: ws).
Proof. reflexivity. Qed.

Lemma split_space_nonempty (s : string) : exists w ws, split_space s = w :: ws.
Proof.
  induction s as [|c s (w & ws & IH)]; cbn [split_space]; [eauto|].
  destruct (is_blank c); [eauto|]. rewrite IH. cbn. eauto.
Qed.

Lemma is_lower_not_blank (c : ascii) : is_lower c = true -> is_blank c = false.
Proof.
  destruct c as [[] [] [] [] [] [] [] []]; vm_compute; intros E;
    first [reflexivity | discriminate].
Qed.

Lemma is_lower_not_space (c : ascii) : is_lower c = true -> is_space c = false.
Proof.
  destruct c as [[] [] [] [] [] [] [] []]; vm_compute; intros E;
    first [reflexivity | discriminate].
Qed.

Lemma split_space_word (w r : string) :
  forallb is_lower (list_ascii_of_string w) = true ->
  split_space (w +:+ String " " r) = w :: split_space r.
Proof.
  induction w as [|c w IH]; rewrite ?append_cons, ?append_empty;
    cbn [split_space list_ascii_of_string forallb]; intros Hw; [reflexivity|].
  apply andb_prop in Hw as [Hc Hw]. rewrite (is_lower_not_blank c Hc), (IH Hw).
  reflexivity.
Qed.

Lemma split_space_last (w : string) :
  forallb is_lower (list_ascii_of_string w) = true -> split_space w = [w].
Proof.
  induction w as [|c w IH]; rewrite ?append_cons, ?append_empty;
    cbn [split_space list_ascii_of_string forallb]; intros Hw; [reflexivity|].
  apply andb_prop in Hw as [Hc Hw]. rewrite (is_lower_not_blank c Hc), (IH Hw).
  reflexivity.
Qed.

Lemma split_space_concat (ws : list string) :
  ws <> [] ->
  Forall (fun w => forallb is_lower (list_ascii_of_string w) = true) ws ->
  split_space (String.concat " " ws) = ws.
Proof.
  induction ws as [|w ws IH]; intros Hne Hf; [congruence|].
  inversion Hf as [|? ? Hw Hws]; subst.
  destruct ws as [|w' ws]; cbn [String.concat].
  - apply split_space_last. assumption.
  - rewrite append_cons, append_empty.
    rewrite split_space_word by assumption. f_equal. apply IH; [discriminate | assumption].
Qed.

Lemma nonspace_count_word (w r : string) :
  forallb is_lower (list_ascii_of_string w) = true ->
  nonspace_count (w +:+ r) = (String.length w + nonspace_count r)%nat.
Proof.
  induction w as [|c w IH]; rewrite ?append_cons, ?append_empty;
    cbn [nonspace_count list_ascii_of_string forallb String.length];
    intros Hw; [reflexivity|].
  apply andb_prop in Hw as [Hc Hw]. rewrite (is_lower_not_space c Hc), (IH Hw).
  reflexivity.
Qed.

Lemma nonspace_count_concat (ws : list string) :
  Forall (fun w => word_ok w = true) ws ->
  (3 * length ws <= nonspace_count (String.concat " " ws))%nat.
Proof.
  induction ws as [|w ws IH]; intros Hf; [cbn; lia|].
  inversion Hf as [|? ? Hw Hws]; subst. specialize (IH Hws).
  unfold word_ok in Hw. apply andb_prop in Hw as [Hlen Hlow].
  apply bool_decide_eq_true in Hlen.
  destruct ws as [|w' ws].
  - pose proof (nonspace_count_word w "" Hlow) as Hc.
    rewrite append_empty_r in Hc. cbn [nonspace_count] in Hc. cbn. lia.
  - rewrite concat_cons2, (nonspace_count_word w _ Hlow), append_cons, append_empty.
    cbn [nonspace_count]. change (is_space " ") with true. cbn [length] in *.
    cbn iota. lia.
Qed.

(** ** Encoding and decoding a phrase *)

Lemma wordlist_ok_parts (l : list string) :
  wordlist_ok l = true ->
  length l = 2048%nat /\ forallb word_ok l = true /\ distinct l = true.
Proof.
  unfold wordlist_ok. intros H. apply andb_prop in H as [H Hd].
  apply andb_prop in H as [Hl Hw]. apply Nat.eqb_eq in Hl. auto.
Qed.

Lemma word_ok_lower (w : string) :
  word_ok w = true -> forallb is_lower (list_ascii_of_string w) = true.
Proof. unfold word_ok. intros H. apply andb_prop in H as [_ H]. exact H. Qed.

Lemma length_chunks {A} (size n : nat) (l : list A) : length (chunks size n l) = n.
Proof.
  revert l. induction n as [|n IH]; intros l; cbn [chunks length]; [reflexivity|].
  rewrite IH. reflexivity.
Qed.

Lemma groups_decode (gs : list (list bool)) :
  Forall (fun g => length g = 11%nat) gs ->
  flat_map (bits_of_nat 11) (map nat_of_bits gs) = concat gs.
Proof.
  induction 1 as [|g gs Hg _ IH]; [reflexivity|].
  cbn [map flat_map concat]. rewrite IH, <- Hg, bits_of_nat_of_bits. reflexivity.
Qed.

Section Phrase.
Context {bip39 : Bip39}.
Hypothesis wordlist_good : wordlist_ok wordlist = true.

(** Groups of at most eleven bits name words, and the words name the
    groups back. *)
Lemma encode_groups (gs : list (list bool)) :
  Forall (fun g => (length g <= 11)%nat) gs ->
  exists ws,
    mapM (fun g => wordlist !! nat_of_bits g) gs = Some ws
    /\ Forall (fun w => word_ok w = true) ws
    /\ mapM (fun w => index_of w wordlist) ws = Some (map nat_of_bits gs)
    /\ length ws = length gs.
Proof.
  destruct (wordlist_ok_parts _ wordlist_good) as (Hlen & Hwords & Hdist).
  induction 1 as [|g gs Hg _ (ws & Hws & Hok & Hidx & Hl)].
  - exists []. repeat split; constructor.
  - assert (Hlt : (nat_of_bits g < length wordlist)%nat).
    { rewrite Hlen. apply nat_of_bits_bound. assumption. }
    destruct (lookup_lt_is_Some_2 _ _ Hlt) as [w Hw].
    exists (w :: ws). split; [|split; [|split]].
    + cbn. rewrite Hw. cbn. rewrite Hws. reflexivity.
    + constructor; [|assumption].
      rewrite forallb_forall in Hwords. apply Hwords, list_elem_of_In.
      eapply list_elem_of_lookup_2. eassumption.
    + cbn. rewrite (index_of_lookup _ _ _ Hdist Hw). cbn. rewrite Hidx. reflexivity.
    + cbn. rewrite Hl. reflexivity.
Qed.

Lemma to_mnemonic_words (data : list byte) :
  allowed_byte_count (length data) = true ->
  let b := (bits_of_bytes data
            ++ take (length data * 8 / 32) (bits_of_bytes (sha256 data)))%list in
  exists ws,
    to_mnemonic data = Ok (String.concat " " ws)
    /\ Forall (fun w => word_ok w = true) ws
    /\ mapM (fun w => index_of w wordlist) ws
       = Some (map nat_of_bits (chunks 11 (length b / 11) b))
    /\ length ws = (length b / 11)%nat.
Proof.
  intros Hcount b.
  destruct (encode_groups (chunks 11 (length b / 11) b)) as (ws & Hws & Hok & Hidx & Hl).
  { apply chunks_length. }
  exists ws. unfold to_mnemonic. rewrite Hcount. cbn [negb]. fold b. rewrite Hws.
  rewrite length_chunks in Hl. auto.
Qed.

(** A phrase of the encoder is not hexadecimal text of 32 bytes. *)
Lemma phrase_not_hex_form (ws : list string) :
  Forall (fun w => word_ok w = true) ws -> (22 <= length ws)%nat ->
  is_hex_form (String.concat " " ws) = false.
Proof.
  intros Hok Hlen. unfold is_hex_form.
  destruct (bytes_fromhex (String.concat " " ws)) as [x|] eqn:E; [|reflexivity].
  apply fromhex_count in E. pose proof (nonspace_count_concat ws Hok).
  apply Nat.eqb_neq. lia.
Qed.

Lemma mnemonic_decodes (s : list byte) :
  length s = 32%nat -> length (sha256 s) = 32%nat ->
  exists ws,
    to_mnemonic s = Ok (String.concat " " ws)
    /\ Forall (fun w => word_ok w = true) ws
    /\ length ws = 24%nat
    /\ to_entropy (String.concat " " ws) = Ok s.
Proof.
  intros Hs Hh.
  destruct (to_mnemonic_words s) as (ws & Hm & Hok & Hidx & Hl).
  { rewrite Hs. reflexivity. }
  set (cs := take (length s * 8 / 32) (bits_of_bytes (sha256 s))) in *.
  assert (Hcs : cs = take 8 (bits_of_bytes (sha256 s))).
  { subst cs. rewrite Hs. reflexivity. }
  assert (Hlcs : length cs = 8%nat).
  { rewrite Hcs, length_take, length_bits_of_bytes, Hh. reflexivity. }
  assert (Hlb : length (bits_of_bytes s ++ cs) = 264%nat).
  { rewrite length_app, length_bits_of_bytes, Hs, Hlcs. reflexivity. }
  rewrite Hlb in Hidx, Hl.
  change (Nat.div 264 11) with 24%nat in Hidx, Hl.
  destruct (chunks_exact 11 24 _ Hlb) as [Hg Hc].
  exists ws. split; [assumption|]. split; [assumption|]. split; [assumption|].
  unfold to_entropy.
  rewrite split_space_concat.
  2:{ destruct ws; [discriminate | discriminate]. }
  2:{ eapply Forall_impl; [exact Hok|]. intros w. apply word_ok_lower. }
  rewrite Hl. change (negb (allowed_word_count 24)) with false. cbn iota.
  rewrite Hidx, (groups_decode _ Hg), Hc.
  change (Nat.div (24 * 11) 33) with 8%nat.
  change (Nat.div (24 * 11 - 8) 8) with 32%nat.
  change (24 * 11 - 8)%nat with 256%nat.
  pose proof (bytes_of_bits_of_bytes s cs) as Hb. rewrite Hs in Hb. rewrite Hb.
  rewrite (drop_app_length' (bits_of_bytes s)).
  2:{ rewrite length_bits_of_bytes, Hs. reflexivity. }
  rewrite Hcs, take_take. change (8 `min` 8)%nat with 8%nat.
  rewrite bool_decide_eq_true_2 by reflexivity. reflexivity.
Qed.
End Phrase.

(** C6. For a 32-byte secret the encoder gives a phrase; the phrase is not
    hexadecimal text of 32 bytes, so the decoder goes to the mnemonic
    attempt, which gives the secret back: the decoder returns the
    hexadecimal text of the secret, which denotes the secret, and no
    starting block, without opening a file. *)
Theorem mnemonic_round_trip {bip39 : Bip39} (s : list byte) (w : world) :
  wordlist_ok wordlist = true ->
  length s = 32%nat ->
  length (sha256 s) = 32%nat ->
  exists phrase,
    to_mnemonic s = Ok phrase
    /\ is_hex_form phrase = false
    /\ to_entropy phrase = Ok s
    /\ run (_load_import phrase) w
       = (Returned (PStr (bytes_hex s), PNone), [MnemonicToEntropy phrase])
    /\ bytes_fromhex (bytes_hex s) = Some s.
Proof.
  intros Hwl Hs Hh.
  destruct (mnemonic_decodes Hwl s Hs Hh) as (ws & Hm & Hok & Hl & Hd).
  exists (String.concat " " ws).
  assert (Hnh : is_hex_form (String.concat " " ws) = false).
  { apply phrase_not_hex_form; [assumption | lia]. }
  split; [assumption|]. split; [assumption|]. split; [assumption|].
  split; [|apply fromhex_bytes_hex].
  unfold run. rewrite (load_import_not_hex _ w Hnh).
  apply load_import_mnemonic_ok. assumption.
Qed.

Lemma mnemonic_round_trip_witness :
  exists phrase,
    to_mnemonic (bip39 := sample_bip39) zero_entropy = Ok phrase
    /\ is_hex_form phrase = false
    /\ to_entropy (bip39 := sample_bip39) phrase = Ok zero_entropy
    /\ run (_load_import (bip39 := sample_bip39) phrase) (empty_world [])
       = (Returned (PStr (bytes_hex zero_entropy), PNone), [MnemonicToEntropy phrase])
    /\ bytes_fromhex (bytes_hex zero_entropy) = Some zero_entropy.
Proof.
  apply (mnemonic_round_trip (bip39 := sample_bip39) zero_entropy (empty_world []));
    vm_compute; reflexivity.
Defined.

(** ** The export file *)

Lemma length_append (a b : string) :
  String.length (a +:+ b) = (String.length a + String.length b)%nat.
Proof.
  induction a as [|c a IH]; [reflexivity|].
  rewrite append_cons. cbn [String.length]. rewrite IH. reflexivity.
Qed.

Lemma split_space_first (p x : string) :
  forallb (fun c => negb (is_blank c)) (list_ascii_of_string p) = true ->
  exists w ws, split_space (p +:+ x) = (p +:+ w) :: ws.
Proof.
  induction p as [|c p IH]; cbn [list_ascii_of_string forallb]; intros Hp.
  - rewrite append_empty. destruct (split_space_nonempty x) as (w & ws & E).
    exists w, ws. rewrite append_empty. exact E.
  - apply andb_prop in Hp as [Hc Hp]. apply negb_true_iff in Hc.
    destruct (IH Hp) as (w & ws & E). exists w, ws.
    rewrite !append_cons. cbn [split_space]. rewrite Hc, E. reflexivity.
Qed.

Lemma fromhex_bad_start (c : ascii) (r : string) :
  is_space c = false -> hexval c = None -> bytes_fromhex (String c r) = None.
Proof.
  intros Hs Hh. cbn [bytes_fromhex]. rewrite Hs, Hh. destruct r; reflexivity.
Qed.

Section ExportFile.
Context {bip39 : Bip39}.
Hypothesis wordlist_good : wordlist_ok wordlist = true.

(** A seed whose first word is longer than any word of the list is not a
    mnemonic. *)
Lemma long_first_word_not_mnemonic (seed w : string) (ws : list string) :
  split_space seed = w :: ws -> (8 < String.length w)%nat ->
  exists e, to_entropy seed = Err e.
Proof.
  intros Hsplit Hlong.
  destruct (wordlist_ok_parts _ wordlist_good) as (_ & Hwords & _).
  unfold to_entropy. rewrite Hsplit.
  destruct (negb (allowed_word_count (length (w :: ws)))); [eauto|].
  cbn [mapM]. rewrite (index_of_long _ _ Hwords Hlong). cbn. eauto.
Qed.

(** The name [export] gives the file is read by the decoder as a file
    name. *)
Lemma export_filename_is_file_form (id : string) :
  let filename := "mobilecoin_seed_phrase_" +:+ slice_to 16 id +:+ ".json" in
  is_hex_form filename = false /\ is_mnemonic_form filename = false.
Proof.
  intros filename.
  assert (Hhex : is_hex_form filename = false).
  { unfold is_hex_form. subst filename. rewrite append_cons.
    rewrite fromhex_bad_start; reflexivity. }
  split; [assumption|]. unfold is_mnemonic_form. rewrite Hhex. cbn [negb andb].
  destruct (split_space_first "mobilecoin_seed_phrase_" (slice_to 16 id +:+ ".json")
              eq_refl) as (w & ws & Hsplit).
  destruct (long_first_word_not_mnemonic filename _ ws Hsplit) as [e He].
  - rewrite length_append. cbn. lia.
  - rewrite He. reflexivity.
Qed.
End ExportFile.

(** C7. For an account and secrets whose entropy is hexadecimal text of 32
    bytes, [_save_export] writes, under the name [export] chooses, a JSON
    object with exactly the fields [seed_phrase], [root_entropy],
    [account_id], [account_name], [account_key] and [first_block_index], in
    this order; and the decoder, given that name, reads the file and
    returns the [root_entropy] and the [first_block_index] that were
    written. *)
Theorem export_then_import {bip39 : Bip39} (a : account) (s : secrets) (b : list byte)
        (w : world) :
  wordlist_ok wordlist = true ->
  bytes_fromhex (entropy s) = Some b ->
  length b = 32%nat ->
  let filename := "mobilecoin_seed_phrase_" +:+ slice_to 16 (account_id a) +:+ ".json" in
  exists seed_phrase w1,
    to_mnemonic b = Ok seed_phrase
    /\ _save_export a s filename w = (Returned tt, w1)
    /\ files w1 !! filename
       = Some (JsonText (PDict [ ("seed_phrase", PStr seed_phrase);
                                 ("root_entropy", PStr (entropy s));
                                 ("account_id", PStr (account_id a));
                                 ("account_name", PStr (name a));
                                 ("account_key", account_key s);
                                 ("first_block_index", first_block_index a) ]))
    /\ run (_load_import filename) w1
       = (Returned (PStr (entropy s), first_block_index a),
          [MnemonicToEntropy filename; Opened filename]).
Proof.
  intros Hwl Hb Hl filename.
  destruct (to_mnemonic_words Hwl b) as (ws & Hm & _).
  { rewrite Hl. reflexivity. }
  destruct (export_filename_is_file_form Hwl (account_id a)) as [Hhex Hmn].
  fold filename in Hhex, Hmn.
  destruct w as [inp fs tr].
  eexists. eexists. split; [exact Hm|].
  split.
  { unfold _save_export. simp. rewrite Hb. simp. rewrite Hm. simp. reflexivity. }
  split.
  { cbn [files]. apply lookup_insert_eq. }
  rewrite (load_import_file_form _ _ Hhex Hmn). f_equal.
  unfold recovery_file_outcome. cbn [files]. rewrite lookup_insert_eq. reflexivity.
Qed.

Lemma export_then_import_witness :
  let a := sample_account "abc123" in
  let s := {| entropy := zero_entropy_hex; account_key := PDict [] |} in
  let filename := "mobilecoin_seed_phrase_abc123.json" in
  exists seed_phrase w1,
    to_mnemonic (bip39 := sample_bip39) zero_entropy = Ok seed_phrase
    /\ _save_export (bip39 := sample_bip39) a s filename (empty_world []) = (Returned tt, w1)
    /\ files w1 !! filename
       = Some (JsonText (PDict [ ("seed_phrase", PStr seed_phrase);
                                 ("root_entropy", PStr zero_entropy_hex);
                                 ("account_id", PStr "abc123");
                                 ("account_name", PStr "savings");
                                 ("account_key", PDict []);
                                 ("first_block_index", PStr "7") ]))
    /\ run (_load_import (bip39 := sample_bip39) filename) w1
       = (Returned (PStr zero_entropy_hex, PStr "7"),
          [MnemonicToEntropy filename; Opened filename]).
Proof.
  apply (export_then_import (bip39 := sample_bip39) (sample_account "abc123")
           {| entropy := zero_entropy_hex; account_key := PDict [] |}
           zero_entropy (empty_world []));
    vm_compute; reflexivity.
Defined.

(** * Further properties of the commands *)

(** ** The answers [confirm] accepts *)

Lemma lower_char_is_y (c : ascii) :
  lower_char c = "y"%char -> c = "y"%char \/ c = "Y"%char.
Proof.
  destruct c as [[] [] [] [] [] [] [] []]; vm_compute; intros E;
    first [discriminate | left; reflexivity | right; reflexivity].
Qed.

Lemma lower_char_is_e (c : ascii) :
  lower_char c = "e"%char -> c = "e"%char \/ c = "E"%char.
Proof.
  destruct c as [[] [] [] [] [] [] [] []]; vm_compute; intros E;
    first [discriminate | left; reflexivity | right; reflexivity].
Qed.

Lemma lower_char_is_s (c : ascii) :
  lower_char c = "s"%char -> c = "s"%char \/ c = "S"%char.
Proof.
  destruct c as [[] [] [] [] [] [] [] []]; vm_compute; intros E;
    first [discriminate | left; reflexivity | right; reflexivity].
Qed.

Lemma affirmative_answers (answer : string) :
  affirmative answer = true <-> answer ∈ accepted_answers.
Proof.
  split.
  - unfold affirmative. intros H. apply bool_decide_eq_true in H.
    apply elem_of_cons in H as [H|H]; [|apply elem_of_cons in H as [H|H]; [|inversion H]].
    + destruct answer as [|c1 [|c2 r]]; try discriminate. cbn in H.
      inversion H as [Hc]. destruct (lower_char_is_y _ Hc) as [-> | ->];
        unfold accepted_answers; set_solver.
    + destruct answer as [|c1 [|c2 [|c3 [|c4 r]]]]; try discriminate. cbn in H.
      inversion H as [[H1 H2 H3]].
      destruct (lower_char_is_y _ H1) as [-> | ->];
        destruct (lower_char_is_e _ H2) as [-> | ->];
        destruct (lower_char_is_s _ H3) as [-> | ->];
        unfold accepted_answers; set_solver.
  - unfold accepted_answers. intros H.
    repeat (apply elem_of_cons in H as [-> | H]; [reflexivity|]). inversion H.
Qed.

(** X1. [confirm] shows the message, reads one line and answers yes
    exactly when the line is [y] or [yes] in any mix of upper and lower
    case, with nothing around it; the line is consumed either way. With no
    line left to read it raises [EOFError]. *)
Theorem confirm_accepts (message : string) (w : world) :
  (forall answer rest,
      stdin w = answer :: rest ->
      confirm message w
      = (Returned (bool_decide (answer ∈ accepted_answers)),
         {| stdin := rest; files := files w;
            trace := (trace w ++ [Prompted message answer])%list |}))
  /\ (stdin w = [] -> confirm message w = (Raised EOFError, w)).
Proof.
  destruct w as [inp fs tr]. cbn [stdin files trace]. split.
  - intros answer rest ->. unfold confirm. simp. f_equal. f_equal.
    fold (affirmative answer).
    destruct (affirmative answer) eqn:E.
    + symmetry. apply bool_decide_eq_true. apply affirmative_answers. assumption.
    + symmetry. apply bool_decide_eq_false. intros Hin.
      apply affirmative_answers in Hin. congruence.
  - intros ->. reflexivity.
Qed.

Lemma confirm_accepts_witness :
  confirm "Continue? (Y/N) " (empty_world ["yEs"; "n"])
  = (Returned true,
     {| stdin := ["n"]; files := ∅;
        trace := [Prompted "Continue? (Y/N) " "yEs"] |})
  /\ confirm "Continue? (Y/N) " (empty_world [" y"])
     = (Returned false,
        {| stdin := []; files := ∅; trace := [Prompted "Continue? (Y/N) " " y"] |})
  /\ confirm "Continue? (Y/N) " (empty_world []) = (Raised EOFError, empty_world []).
Proof.
  split; [|split].
  - rewrite (proj1 (confirm_accepts "Continue? (Y/N) " (empty_world ["yEs"; "n"]))
               "yEs" ["n"] eq_refl).
    reflexivity.
  - rewrite (proj1 (confirm_accepts "Continue? (Y/N) " (empty_world [" y"]))
               " y" [] eq_refl).
    reflexivity.
  - apply (proj2 (confirm_accepts "Continue? (Y/N) " (empty_world []))).
    reflexivity.
Defined.

(** ** What [send] does as written *)

(** X2. [send] never gets to its prompt: in every run it ends without a
    normal return, having shown no prompt and made no [send_transaction]
    call; whenever the account prefix resolves, it ends with the
    [TypeError] of [str.join] called with two arguments. *)
Theorem send_never_sends {client : Client} (prefix to_address : string)
        (amount : spec_float) (w : world) :
  let r := run (CommandLineInterface.send prefix amount to_address) w in
  fst r <> Returned tt
  /\ existsb is_prompt (snd r) = false
  /\ existsb (is_call is_send_call) (snd r) = false
  /\ (forall a, run (CommandLineInterface._load_account_prefix prefix) w
                = (Returned a, [Called Call_get_all_accounts]) ->
                r = (Raised TypeError, [Called Call_get_all_accounts])).
Proof.
  destruct w as [inp fs tr].
  unfold CommandLineInterface.send, CommandLineInterface._load_account_prefix.
  simp. repeat (branch; simp);
    (split; [discriminate|]; split; [reflexivity|]; split; [reflexivity|]);
    intros resolved E; first [discriminate | reflexivity].
Qed.

Lemma send_never_sends_witness :
  run (CommandLineInterface.send (client := sample_client) "abcx" (S754_zero false) "addr")
      (empty_world ["y"])
  = (Raised TypeError, [Called Call_get_all_accounts]).
Proof.
  apply (send_never_sends (client := sample_client) "abcx" "addr" (S754_zero false)
           (empty_world ["y"]) ) with (a := sample_account "abcxyz").
  reflexivity.
Defined.

(** ** More on account resolution *)

Lemma load_account_prefix_run {client : Client} (prefix : string) (w : world)
      (accounts : list (string * account)) :
  get_all_accounts (trace w) = Ok accounts ->
  run (CommandLineInterface._load_account_prefix prefix) w
  = match List.filter (fun a_id => startswith a_id prefix) (map fst accounts) with
    | [] => (Exited 1, [Called Call_get_all_accounts;
                        Printed ("Could not find account starting with " +:+ prefix)])
    | [a_id] => (match dict_get a_id accounts with
                 | Ok a => Returned a
                 | Err e => Raised e
                 end, [Called Call_get_all_accounts])
    | a_id :: a_id' :: rest =>
        (Exited 1, [Called Call_get_all_accounts;
                    Printed ("Multiple matching matching ids: "
                             +:+ String.concat ", " (a_id :: a_id' :: rest))])
    end.
Proof.
  destruct w as [inp fs tr]. cbn [trace]. intros Hacc.
  unfold CommandLineInterface._load_account_prefix. simp. rewrite Hacc. simp.
  destruct (List.filter _ _) as [|a_id [|a_id' rest]]; simp; try reflexivity.
  destruct (dict_get a_id accounts); simp; reflexivity.
Qed.

Lemma prefix_trans (a b c : string) :
  String.prefix a b = true -> String.prefix b c = true -> String.prefix a c = true.
Proof.
  revert b c. induction a as [|x a IH]; intros b c Hab Hbc; [destruct c; reflexivity|].
  destruct b as [|y b]; [discriminate|]. destruct c as [|z c]; [discriminate|].
  cbn [String.prefix] in *.
  destruct (ascii_dec x y) as [->|]; [|discriminate].
  destruct (ascii_dec y z) as [->|]; [|discriminate].
  destruct (ascii_dec z z); [|congruence]. eapply IH; eassumption.
Qed.

Lemma prefix_slice (n : nat) (s : string) : String.prefix (slice_to n s) s = true.
Proof.
  unfold slice_to. revert s. induction n as [|n IH]; intros s.
  - destruct s; reflexivity.
  - destruct s as [|c s]; [reflexivity|]. cbn [String.substring String.prefix].
    destruct (ascii_dec c c); [apply IH | congruence].
Qed.

Lemma two_distinct_members {A} (x y : A) (l : list A) :
  x ∈ l -> y ∈ l -> x <> y -> exists a b r, l = a :: b :: r.
Proof.
  intros Hx Hy Hne. destruct l as [|a [|b r]].
  - inversion Hx.
  - apply list_elem_of_singleton in Hx, Hy. congruence.
  - eauto.
Qed.

(** X3. An account whose identifier is the beginning of another account's
    identifier cannot be selected: every prefix of its identifier, the full
    identifier included, matches both accounts, and resolution ends with
    the message listing the matches and exit status 1. *)
Theorem shadowed_account_unreachable {client : Client} (w : world)
        (accounts : list (string * account)) (a_id other prefix : string) :
  get_all_accounts (trace w) = Ok accounts ->
  a_id ∈ map fst accounts ->
  other ∈ map fst accounts ->
  a_id <> other ->
  startswith other a_id = true ->
  startswith a_id prefix = true ->
  exists matching,
    a_id ∈ matching /\ other ∈ matching
    /\ run (CommandLineInterface._load_account_prefix prefix) w
       = (Exited 1, [Called Call_get_all_accounts;
                     Printed ("Multiple matching matching ids: "
                              +:+ String.concat ", " matching)]).
Proof.
  intros Hacc Hin Hother Hne Hshadow Hprefix.
  rewrite (load_account_prefix_run prefix w accounts Hacc).
  set (matching := List.filter (fun k => startswith k prefix) (map fst accounts)).
  assert (H1 : a_id ∈ matching).
  { apply matching_ids_spec. split; assumption. }
  assert (H2 : other ∈ matching).
  { apply matching_ids_spec. split; [assumption|].
    unfold startswith in *. eapply prefix_trans; eassumption. }
  destruct (two_distinct_members _ _ _ H1 H2 Hne) as (a & b & r & E).
  exists matching. rewrite E in *. auto.
Qed.

Lemma shadowed_account_unreachable_witness :
  exists matching,
    "abc" ∈ matching /\ "abcd" ∈ matching
    /\ run (CommandLineInterface._load_account_prefix
              (client := sample_client_listing
                           [("abc", sample_account "abc"); ("abcd", sample_account "abcd")])
              "abc") (empty_world [])
       = (Exited 1, [Called Call_get_all_accounts;
                     Printed ("Multiple matching matching ids: "
                              +:+ String.concat ", " matching)]).
Proof.
  apply (shadowed_account_unreachable
           (client := sample_client_listing
                        [("abc", sample_account "abc"); ("abcd", sample_account "abcd")])
           (empty_world []) [("abc", sample_account "abc"); ("abcd", sample_account "abcd")]
           "abc" "abcd" "abc").
  - reflexivity.
  - cbn. set_solver.
  - cbn. set_solver.
  - discriminate.
  - reflexivity.
  - reflexivity.
Defined.

(** X4. The abbreviated identifier that the commands display, the first
    characters of an account identifier, always leads back to a listed
    account: resolving it returns an account listed under an identifier
    with that beginning, the account itself when no other identifier
    shares it, or reports several matches, the account among them; it
    never reports that no account was found. *)
Theorem short_code_resolves {client : Client} (w : world)
        (accounts : list (string * account)) (a_id : string) (n : nat) :
  get_all_accounts (trace w) = Ok accounts ->
  a_id ∈ map fst accounts ->
  let r := run (CommandLineInterface._load_account_prefix (slice_to n a_id)) w in
  (exists a, (a_id, a) ∈ accounts /\ r = (Returned a, [Called Call_get_all_accounts]))
  \/ (exists matching,
         a_id ∈ matching /\ (2 <= length matching)%nat
         /\ r = (Exited 1, [Called Call_get_all_accounts;
                            Printed ("Multiple matching matching ids: "
                                     +:+ String.concat ", " matching)])).
Proof.
  intros Hacc Hin r. subst r.
  rewrite (load_account_prefix_run _ w accounts Hacc).
  set (matching := List.filter (fun k => startswith k (slice_to n a_id)) (map fst accounts)).
  assert (H1 : a_id ∈ matching).
  { apply matching_ids_spec. split; [assumption | apply prefix_slice]. }
  destruct matching as [|x [|y rest]] eqn:E.
  - inversion H1.
  - left. apply list_elem_of_singleton in H1. subst x.
    destruct (dict_get_elem _ _ Hin) as (a & Ha & Hm). exists a. rewrite Ha. auto.
  - right. exists (x :: y :: rest). split; [assumption|]. split; [cbn; lia | reflexivity].
Qed.

Lemma short_code_resolves_witness :
  (exists a, ("abcxyz", a) ∈ [("abc123", sample_account "abc123");
                              ("abcxyz", sample_account "abcxyz")]
             /\ run (CommandLineInterface._load_account_prefix (client := sample_client)
                       (slice_to 4 "abcxyz")) (empty_world [])
                = (Returned a, [Called Call_get_all_accounts]))
  \/ (exists matching,
         "abcxyz" ∈ matching /\ (2 <= length matching)%nat
         /\ run (CommandLineInterface._load_account_prefix (client := sample_client)
                   (slice_to 4 "abcxyz")) (empty_world [])
            = (Exited 1, [Called Call_get_all_accounts;
                          Printed ("Multiple matching matching ids: "
                                   +:+ String.concat ", " matching)])).
Proof.
  apply (short_code_resolves (client := sample_client) (empty_world [])
           [("abc123", sample_account "abc123"); ("abcxyz", sample_account "abcxyz")]
           "abcxyz" 4).
  - reflexivity.
  - cbn. set_solver.
Defined.

(** ** The two passes of [list] *)

Lemma fetch_balances {client : Client} (accounts : list (string * account)) (w : world) :
  let fetch := fun '(a_id, a) =>
                 b ← rpc (Call_get_balance_for_account a_id)
                         (fun h => get_balance_for_account h a_id);
                 mret (a_id, a, b) in
  let calls := map (fun entry => Called (Call_get_balance_for_account (fst entry))) in
  (exists l, map fst l = accounts
             /\ (forall i x, l !! i = Some x ->
                   get_balance_for_account (trace w ++ calls (take i accounts))%list
                     (fst (fst x)) = Ok (snd x))
             /\ mapM fetch accounts w
                = (Returned l,
                   {| stdin := stdin w; files := files w;
                      trace := (trace w ++ calls accounts)%list |}))
  \/ (exists e k, (k < length accounts)%nat
                  /\ mapM fetch accounts w
                     = (Raised e,
                        {| stdin := stdin w; files := files w;
                           trace := (trace w ++ calls (take (S k) accounts))%list |})).
Proof.
  intros fetch calls. revert w.
  induction accounts as [|[a_id a] accounts IH]; intros [inp fs tr].
  - left. exists []. split; [reflexivity|]. split; [intros i x Hx; inversion Hx|].
    cbn. rewrite app_nil_r. reflexivity.
  - cbn [mapM]. unfold fetch at 1. simp.
    destruct (get_balance_for_account tr a_id) as [b|e] eqn:Eb; simp.
    + destruct (IH {| stdin := inp; files := fs;
                      trace := (tr ++ [Called (Call_get_balance_for_account a_id)])%list |})
        as [(l & Hl & Hr & E) | (e & k & Hk & E)]; fold fetch; rewrite E; simp.
      * left. exists ((a_id, a, b) :: l). split; [cbn; rewrite Hl; reflexivity|].
        split; [|reflexivity].
        intros [|i] x Hx; cbn in Hx.
        -- inversion Hx; subst x. cbn. rewrite app_nil_r. exact Eb.
        -- specialize (Hr i x Hx). cbn [trace] in Hr. cbn [take map fst].
           rewrite <- app_assoc in Hr. exact Hr.
      * right. exists e, (S k). split; [cbn; lia | reflexivity].
    + right. exists e, 0%nat. split; [cbn; lia|]. cbn. rewrite take_0. reflexivity.
Qed.

Lemma show_entry (a : account) (b : balance) (w : world) :
  (let '(total_blocks, offline) := total_blocks b in
   print "";; _print_account a b) w
  = (Returned tt,
     {| stdin := stdin w; files := files w;
        trace := (trace w ++ listed_lines a b)%list |}).
Proof.
  unfold listed_lines. rewrite (total_blocks_rule b). destruct w as [inp fs tr].
  unfold _print_account. rewrite (total_blocks_rule b). simp. reflexivity.
Qed.

Lemma print_listing (l : list (string * account * balance)) (w : world) :
  let show := fun '(a_id, a, b) =>
                let '(total_blocks, offline) := total_blocks b in
                print "";; _print_account a b in
  exists units,
    mapM show l w
    = (Returned units,
       {| stdin := stdin w; files := files w;
          trace := (trace w
                    ++ flat_map (fun x => listed_lines (snd (fst x)) (snd x)) l)%list |}).
Proof.
  intros show. revert w. induction l as [|[[a_id a] b] l IH]; intros w.
  - exists []. destruct w. cbn. rewrite app_nil_r. reflexivity.
  - cbn [mapM]. unfold mbind at 1. unfold M_bind at 1.
    replace (show (a_id, a, b) w)
      with (Returned tt,
            {| stdin := stdin w; files := files w;
               trace := (trace w ++ listed_lines a b)%list |})
      by (symmetry; apply show_entry).
    unfold mbind at 1. unfold M_bind at 1.
    destruct (IH {| stdin := stdin w; files := files w;
                    trace := (trace w ++ listed_lines a b)%list |}) as [units E].
    fold show. rewrite E. cbn [stdin files trace].
    exists (tt :: units). cbn [flat_map fst snd]. rewrite <- app_assoc. reflexivity.
Qed.

Lemma bind_returned {A B} (m : M A) (k : A -> M B) (w w' : world) (a : A) :
  m w = (Returned a, w') -> (m ≫= k) w = k a w'.
Proof. intros E. unfold mbind, M_bind. rewrite E. reflexivity. Qed.

Lemma bind_raised {A B} (m : M A) (k : A -> M B) (w w' : world) (e : exn) :
  m w = (Raised e, w') -> (m ≫= k) w = (Raised e, w').
Proof. intros E. unfold mbind, M_bind. rewrite E. reflexivity. Qed.

Lemma bind_exited {A B} (m : M A) (k : A -> M B) (w w' : world) (code : Z) :
  m w = (Exited code, w') -> (m ≫= k) w = (Exited code, w').
Proof. intros E. unfold mbind, M_bind. rewrite E. reflexivity. Qed.

Lemma list_value {client : Client} (w : world) (accounts : list (string * account)) :
  get_all_accounts (trace w) = Ok accounts ->
  accounts <> [] ->
  (exists l, map fst l = accounts
             /\ (forall i x, l !! i = Some x ->
                   get_balance_for_account (trace w ++ list_calls (take i accounts))%list
                     (fst (fst x)) = Ok (snd x))
             /\ CommandLineInterface.list w
                = (Returned tt,
                   {| stdin := stdin w; files := files w;
                      trace := (trace w
                                ++ list_calls accounts
                                ++ flat_map (fun x => listed_lines (snd (fst x)) (snd x)) l
                                ++ [Printed ""])%list |}))
  \/ (exists e k, (k < length accounts)%nat
                  /\ CommandLineInterface.list w
                     = (Raised e,
                        {| stdin := stdin w; files := files w;
                           trace := (trace w ++ list_calls (take (S k) accounts))%list |})).
Proof.
  destruct w as [inp fs tr]. cbn [trace stdin files]. intros Hacc Hne.
  unfold CommandLineInterface.list.
  erewrite bind_returned; [|unfold rpc; cbn [trace stdin files]; rewrite Hacc; reflexivity].
  destruct accounts as [|entry accounts]; [congruence|].
  cbn [length Nat.eqb]. set (all := entry :: accounts).
  destruct (fetch_balances all {| stdin := inp; files := fs;
                                  trace := (tr ++ [Called Call_get_all_accounts])%list |})
    as [(l & Hl & Hr & E) | (e & k & Hk & E)]; cbn [stdin files trace] in E.
  - left. exists l. split; [assumption|]. split.
    { intros i x Hx. specialize (Hr i x Hx). cbn [trace] in Hr.
      unfold list_calls. rewrite <- app_assoc in Hr. exact Hr. }
    erewrite bind_returned by exact E.
    destruct (print_listing l
                {| stdin := inp; files := fs;
                   trace := ((tr ++ [Called Call_get_all_accounts])
                             ++ map (fun entry =>
                                       Called (Call_get_balance_for_account (fst entry)))
                                    all)%list |})
      as [units Ep].
    cbn [stdin files trace] in Ep. erewrite bind_returned by exact Ep.
    unfold print, emit. cbn [stdin files trace].
    unfold list_calls. rewrite <- !app_assoc. reflexivity.
  - right. exists e, k. split; [assumption|].
    erewrite bind_raised by exact E.
    unfold list_calls. rewrite <- !app_assoc. reflexivity.
Qed.

(** X5. [list] asks for the accounts, then for the balance of each account
    in the order of the listing, and only then prints: four lines per
    account and a closing empty line. When a balance query fails the
    command ends with that failure and has printed nothing. With no
    account it prints that there are none and asks for no balance. *)
Theorem list_fetches_then_prints {client : Client} (w : world)
        (accounts : list (string * account)) :
  get_all_accounts (trace w) = Ok accounts ->
  let r := run CommandLineInterface.list w in
  (accounts = [] -> r = (Returned tt, [Called Call_get_all_accounts; Printed "No accounts."]))
  /\ (accounts <> [] ->
      (exists l, map fst l = accounts
                 /\ r = (Returned tt,
                         list_calls accounts
                         ++ flat_map (fun x => listed_lines (snd (fst x)) (snd x)) l
                         ++ [Printed ""])%list)
      \/ (exists e k, (k < length accounts)%nat
                      /\ r = (Raised e, list_calls (take (S k) accounts)))).
Proof.
  intros Hacc. cbv zeta. split.
  - intros ->. destruct w as [inp fs tr]. cbn [trace] in Hacc.
    unfold CommandLineInterface.list. simp. rewrite Hacc. simp. reflexivity.
  - intros Hne. unfold run, new_events.
    destruct (list_value w accounts Hacc Hne) as [(l & Hl & _ & E) | (e & k & Hk & E)];
      rewrite E; cbn [fst snd trace]; rewrite drop_app_length.
    + left. exists l. auto.
    + right. exists e, k. auto.
Qed.

Lemma list_fetches_then_prints_witness :
  exists e k,
    (k < 2)%nat
    /\ run (CommandLineInterface.list (client := sample_client_failing)) (empty_world [])
       = (Raised e,
          list_calls (take (S k) [("abc123", sample_account "abc123");
                                  ("abcxyz", sample_account "abcxyz")])).
Proof.
  destruct (list_fetches_then_prints (client := sample_client_failing) (empty_world [])
              [("abc123", sample_account "abc123"); ("abcxyz", sample_account "abcxyz")]
              eq_refl) as [_ H].
  destruct (H ltac:(discriminate)) as [(l & _ & E) | Hfail].
  - exfalso. vm_compute in E. discriminate.
  - exact Hfail.
Defined.

(** ** The totals [list] and [_print_account] show *)

(** The status lines among the lines [list] prints. *)
Lemma listed_status (l : list (string * account * balance)) :
  List.filter is_status (flat_map (fun x => listed_lines (snd (fst x)) (snd x)) l)
  = map (fun x => status_line (snd x)) l.
Proof.
  induction l as [|[[a_id a] b] l IH]; [reflexivity|].
  cbn [flat_map fst snd map]. unfold listed_lines at 1. rewrite (total_blocks_rule b).
  cbn [app List.filter is_status fst snd]. rewrite IH. reflexivity.
Qed.

Lemma calls_no_status (accounts : list (string * account)) :
  List.filter is_status (list_calls accounts) = [].
Proof.
  unfold list_calls. cbn [List.filter is_status].
  induction accounts as [|x accounts IH]; [reflexivity | exact IH].
Qed.

(** C9. The block total shown for a balance is the local block index, with
    the offline flag set, when the network block index is zero, and the
    network block index itself otherwise. [_print_account] puts that total
    on its status line. [list], when it returns, has printed one status
    line for each account of the listing, in order, and no other; each is
    made by this rule from the balance the client gave for that account at
    its turn. When [list] fails it has printed no status line. *)
Theorem offline_substitution {client : Client} (a : account) (b : balance) (w : world)
        (accounts : list (string * account)) :
  run (_print_account a b) w
  = (Returned tt,
     [Printed (slice_to 6 (account_id a) +:+ " " +:+ name a);
      Printed ("  address " +:+ main_address a);
      PrintedStatus (pmob2mob (unspent_pmob b)) (account_block_index b)
        (if network_block_index b =? 0 then local_block_index b
         else network_block_index b)
        (network_block_index b =? 0)])
  /\ (get_all_accounts (trace w) = Ok accounts ->
      let r := run CommandLineInterface.list w in
      (fst r = Returned tt ->
       exists balances,
         length balances = length accounts
         /\ (forall i entry reply,
               accounts !! i = Some entry -> balances !! i = Some reply ->
               get_balance_for_account (trace w ++ list_calls (take i accounts))%list
                 (fst entry) = Ok reply)
         /\ List.filter is_status (snd r) = map status_line balances)
      /\ (fst r <> Returned tt -> List.filter is_status (snd r) = [])).
Proof.
  split.
  - destruct w as [inp fs tr]. unfold _print_account. rewrite total_blocks_rule.
    simp. reflexivity.
  - intros Hacc. cbv zeta. destruct accounts as [|entry accounts].
    + assert (E : run CommandLineInterface.list w
                  = (Returned tt, [Called Call_get_all_accounts; Printed "No accounts."])).
      { destruct w as [inp fs tr]. cbn [trace] in Hacc.
        unfold CommandLineInterface.list. simp. rewrite Hacc. simp. reflexivity. }
      rewrite E. cbn [fst snd]. split; [|congruence].
      intros _. exists []. split; [reflexivity|]. split; [|reflexivity].
      intros i x reply Hx. inversion Hx.
    + set (all := entry :: accounts) in *. unfold run, new_events.
      destruct (list_value w all Hacc ltac:(discriminate))
        as [(l & Hl & Hr & E) | (e & k & Hk & E)];
        rewrite E; cbn [fst snd trace]; rewrite drop_app_length.
      * split; [|congruence]. intros _. exists (map snd l). split; [|split].
        -- rewrite <- Hl. rewrite !length_map. reflexivity.
        -- intros i x reply Hx Hreply. rewrite list_lookup_fmap in Hreply.
           destruct (l !! i) as [y|] eqn:Hy; [|discriminate].
           cbn in Hreply. inversion Hreply; subst reply; clear Hreply.
           rewrite <- Hl, list_lookup_fmap, Hy in Hx. cbn in Hx.
           inversion Hx; subst x; clear Hx. apply (Hr i y Hy).
        -- rewrite !List.filter_app, calls_no_status, listed_status. cbn.
           rewrite app_nil_r, map_map. reflexivity.
      * split; [discriminate|]. intros _. apply calls_no_status.
Qed.

(** The sample wallet offline: both accounts are shown against the nine
    blocks of the local ledger and flagged offline. *)
Lemma offline_substitution_witness :
  List.filter is_status
    (snd (run (CommandLineInterface.list (client := sample_client_offline)) (empty_world [])))
  = [PrintedStatus (pmob2mob 0) 9 9 true; PrintedStatus (pmob2mob 5000000000000) 9 9 true].
Proof.
  destruct (proj2 (offline_substitution (client := sample_client_offline)
                     (sample_account "abc123") (sample_balance 0 true 9) (empty_world [])
                     [("abc123", sample_account "abc123"); ("abcxyz", sample_account "abcxyz")])
              eq_refl) as [H _].
  destruct (H eq_refl) as (balances & Hlen & Hreply & Hstatus).
  rewrite Hstatus.
  destruct balances as [|b0 [|b1 [|b2 rest]]]; try discriminate Hlen.
  pose proof (Hreply 0%nat _ b0 eq_refl eq_refl) as H0.
  pose proof (Hreply 1%nat _ b1 eq_refl eq_refl) as H1.
  cbn in H0, H1. inversion H0. inversion H1. reflexivity.
Defined.

(** ** An import needs a seed *)

Lemma load_import_value {bip39 : Bip39} (seed : string) (w : world) :
  exists o evs,
    _load_import seed w
    = (o, {| stdin := stdin w; files := files w; trace := (trace w ++ evs)%list |})
    /\ (evs = [] \/ evs = [MnemonicToEntropy seed]
        \/ evs = [MnemonicToEntropy seed; Opened seed]).
Proof.
  destruct w as [inp fs tr].
  unfold _load_import, _load_import_mnemonic, _load_import_file. cbn [stdin files trace].
  assert (Hm : exists o evs,
             _load_import_mnemonic seed {| stdin := inp; files := fs; trace := tr |}
             = (o, {| stdin := inp; files := fs; trace := (tr ++ evs)%list |})
             /\ (evs = [] \/ evs = [MnemonicToEntropy seed]
                 \/ evs = [MnemonicToEntropy seed; Opened seed])).
  { unfold _load_import_mnemonic, _load_import_file. simp.
    destruct (to_entropy seed) as [ent|e] eqn:E; simp; [eauto 6|].
    destruct (to_entropy_errors _ _ E) as [-> | ->]; simp.
    all: destruct (fs !! seed) as [[data|raw|e0|e0]|]; simp; eauto 6.
    all: destruct (py_getitem data "root_entropy"); simp; eauto 6.
    all: destruct (py_getitem data "first_block_index"); simp; eauto 6. }
  fold (_load_import_file seed). fold (_load_import_mnemonic seed).
  destruct (bytes_fromhex seed) as [b|]; [|exact Hm].
  destruct (length b =? 32)%nat; [|exact Hm].
  exists (Returned (PStr (bytes_hex b), PNone)), []. rewrite app_nil_r. auto.
Qed.

(** X6. The seed decoder calls nothing on the client, writes no file and
    reads no input: all it adds to the trace is the call of the mnemonic
    package and the opening of the file. When it does not return,
    [import_] ends with the same failure in the same world, without any
    call on the client. *)
Theorem import_needs_seed {bip39 : Bip39} {client : Client}
        (seed : string) (name block : pyval) (w : world) :
  let decoded := _load_import seed w in
  files (snd decoded) = files w
  /\ stdin (snd decoded) = stdin w
  /\ (new_events w (snd decoded) = []
      \/ new_events w (snd decoded) = [MnemonicToEntropy seed]
      \/ new_events w (snd decoded) = [MnemonicToEntropy seed; Opened seed])
  /\ (forall e, fst decoded = Raised e ->
                CommandLineInterface.import_ seed name block w = (Raised e, snd decoded)).
Proof.
  cbv zeta. destruct (load_import_value seed w) as (o & evs & E & Hevs). rewrite E.
  cbn [fst snd files stdin]. split; [reflexivity|]. split; [reflexivity|]. split.
  - unfold new_events. cbn [trace]. rewrite drop_app_length. exact Hevs.
  - intros e ->. unfold CommandLineInterface.import_.
    apply (bind_raised _ _ _ _ _ E).
Qed.

Lemma import_needs_seed_witness :
  CommandLineInterface.import_ (bip39 := sample_bip39) (client := sample_client)
    "zzz" PNone PNone (empty_world [])
  = (Raised (FileNotFoundError "zzz"),
     snd (_load_import (bip39 := sample_bip39) "zzz" (empty_world []))).
Proof.
  apply (import_needs_seed (bip39 := sample_bip39) (client := sample_client)
           "zzz" PNone PNone (empty_world [])).
  reflexivity.
Defined.

(** ** What [_save_export] writes, and when *)

(** X7. [_save_export] writes nothing unless it succeeds: when the entropy
    of the secrets is not hexadecimal text, or is text of a number of bytes
    other than 16, 20, 24, 28 or 32, it raises [ValueError] and leaves the
    world as it was. In every case no file other than the named one
    changes. *)
Theorem save_export_all_or_nothing {bip39 : Bip39} (a : account) (s : secrets)
        (filename : string) (w : world) :
  ((forall b, bytes_fromhex (entropy s) = Some b -> allowed_byte_count (length b) = false) ->
   _save_export a s filename w = (Raised ValueError, w))
  /\ (forall other, other <> filename ->
                    files (snd (_save_export a s filename w)) !! other = files w !! other).
Proof.
  destruct w as [inp fs tr]. split.
  - intros Hbad. unfold _save_export. simp.
    destruct (bytes_fromhex (entropy s)) as [b|]; simp; [|reflexivity].
    unfold to_mnemonic. rewrite (Hbad b eq_refl). reflexivity.
  - intros other Hne. unfold _save_export. simp.
    destruct (bytes_fromhex (entropy s)) as [b|]; simp; [|reflexivity].
    destruct (to_mnemonic b); simp; [|reflexivity].
    apply lookup_insert_ne. congruence.
Qed.

Lemma save_export_all_or_nothing_witness :
  _save_export (bip39 := sample_bip39) (sample_account "abc123")
    {| entropy := "cafe"; account_key := PNone |} "seed.json" (empty_world [])
  = (Raised ValueError, empty_world [])
  /\ _save_export (bip39 := sample_bip39) (sample_account "abc123")
       {| entropy := "not hex"; account_key := PNone |} "seed.json" (empty_world [])
     = (Raised ValueError, empty_world []).
Proof.
  split.
  - apply (save_export_all_or_nothing (bip39 := sample_bip39)).
    intros b E. vm_compute in E. inversion E. reflexivity.
  - apply (save_export_all_or_nothing (bip39 := sample_bip39)).
    intros b E. vm_compute in E. discriminate.
Defined.

(** ** The normal form of a hexadecimal seed *)

Lemma length_bytes_hex (l : list byte) : String.length (bytes_hex l) = (2 * length l)%nat.
Proof.
  induction l as [|b l IH]; [reflexivity|].
  cbn [bytes_hex length]. rewrite length_append, IH.
  unfold byte_hex. cbn [String.length]. lia.
Qed.

Lemma byte_hex_lower_hex (b : byte) (r : string) :
  forallb is_lower_hex (list_ascii_of_string (byte_hex b +:+ r))
  = forallb is_lower_hex (list_ascii_of_string r).
Proof. destruct b; reflexivity. Qed.

Lemma bytes_hex_lower_hex (l : list byte) :
  forallb is_lower_hex (list_ascii_of_string (bytes_hex l)) = true.
Proof.
  induction l as [|b l IH]; [reflexivity|].
  cbn [bytes_hex]. rewrite byte_hex_lower_hex. exact IH.
Qed.

Lemma lower_char_same_digit (c : ascii) :
  hexval (lower_char c) = hexval c /\ is_space (lower_char c) = is_space c.
Proof. destruct c as [[] [] [] [] [] [] [] []]; split; reflexivity. Qed.

Lemma fromhex_lower_below (n : nat) (s : string) :
  (String.length s < n)%nat -> bytes_fromhex (lower s) = bytes_fromhex s.
Proof.
  revert s. induction n as [|n IH]; intros s Hlen; [lia|].
  destruct s as [|c r]; [reflexivity|]. cbn [lower bytes_fromhex].
  destruct (lower_char_same_digit c) as [Hh Hs]. rewrite Hs, Hh.
  destruct (is_space c).
  - apply IH. cbn in Hlen. lia.
  - destruct r as [|d r']; [reflexivity|]. cbn [lower].
    destruct (lower_char_same_digit d) as [Hd _]. rewrite Hd.
    rewrite (IH r'); [reflexivity | cbn in Hlen; lia].
Qed.

Lemma fromhex_lower (s : string) : bytes_fromhex (lower s) = bytes_fromhex s.
Proof. apply (fromhex_lower_below (S (String.length s))). lia. Qed.

(** X8. A seed taken as hexadecimal is returned in one normal form: 64
    lower-case hexadecimal digits with no white space, which denote the
    same 32 bytes. Upper-case digits in the seed make no difference to
    the result, and the normal form decodes to itself. *)
Theorem hex_seed_normal_form {bip39 : Bip39} (seed : string) (b : list byte) (w : world) :
  bytes_fromhex seed = Some b ->
  length b = 32%nat ->
  _load_import seed w = (Returned (PStr (bytes_hex b), PNone), w)
  /\ String.length (bytes_hex b) = 64%nat
  /\ forallb is_lower_hex (list_ascii_of_string (bytes_hex b)) = true
  /\ _load_import (lower seed) w = _load_import seed w
  /\ _load_import (bytes_hex b) w = _load_import seed w.
Proof.
  intros Hb Hl.
  assert (E : _load_import seed w = (Returned (PStr (bytes_hex b), PNone), w)).
  { apply load_import_hex; assumption. }
  split; [exact E|]. split; [rewrite length_bytes_hex, Hl; reflexivity|].
  split; [apply bytes_hex_lower_hex|]. rewrite E. split.
  - apply load_import_hex; [rewrite fromhex_lower|]; assumption.
  - apply load_import_hex; [apply fromhex_bytes_hex | assumption].
Qed.

Lemma hex_seed_normal_form_witness :
  _load_import (bip39 := sample_bip39)
    "CAFE 0000 0000 0000 0000 0000 0000 0000 0000 0000 0000 0000 0000 0000 0000 00Ff"
    (empty_world [])
  = (Returned (PStr "cafe0000000000000000000000000000000000000000000000000000000000ff",
               PNone),
     empty_world []).
Proof.
  apply (hex_seed_normal_form (bip39 := sample_bip39)
           "CAFE 0000 0000 0000 0000 0000 0000 0000 0000 0000 0000 0000 0000 0000 0000 00Ff"
           (["202"%byte; "254"%byte] ++ repeat "000"%byte 29 ++ ["255"%byte])%list
           (empty_world []));
    reflexivity.
Defined.

(** ** Phrases of every length *)

Section PhraseSizes.
Context {bip39 : Bip39}.
Hypothesis wordlist_good : wordlist_ok wordlist = true.

Lemma mnemonic_decodes_sized (s : list byte) (c n : nat) :
  length (sha256 s) = 32%nat ->
  allowed_byte_count (length s) = true ->
  allowed_word_count n = true ->
  (length s * 8 / 32 = c)%nat ->
  (c <= 256)%nat ->
  (8 * length s + c = n * 11)%nat ->
  (n * 11 / 33 = c)%nat ->
  exists ws,
    to_mnemonic s = Ok (String.concat " " ws)
    /\ Forall (fun w => word_ok w = true) ws
    /\ length ws = n
    /\ to_entropy (String.concat " " ws) = Ok s.
Proof.
  intros Hh Hbytes Hwords Hc Hc256 Htotal Hsum.
  destruct (to_mnemonic_words wordlist_good s Hbytes) as (ws & Hm & Hok & Hidx & Hl).
  rewrite Hc in Hidx, Hl.
  set (cs := take c (bits_of_bytes (sha256 s))) in *.
  assert (Hlcs : length cs = c).
  { subst cs. rewrite length_take, length_bits_of_bytes, Hh. lia. }
  assert (Hlb : length (bits_of_bytes s ++ cs) = (n * 11)%nat).
  { rewrite length_app, length_bits_of_bytes, Hlcs. exact Htotal. }
  rewrite Hlb, Nat.div_mul in Hidx, Hl by discriminate.
  destruct (chunks_exact 11 n _ Hlb) as [Hg Hcat].
  exists ws. split; [assumption|]. split; [assumption|]. split; [assumption|].
  unfold to_entropy. rewrite split_space_concat.
  2:{ intros ->. cbn in Hl. subst n. discriminate. }
  2:{ eapply Forall_impl; [exact Hok|]. intros w. apply word_ok_lower. }
  rewrite Hl, Hwords. cbn [negb]. cbn iota.
  rewrite Hidx, (groups_decode _ Hg), Hcat, Hsum.
  replace (n * 11 - c)%nat with (length s * 8)%nat by lia.
  rewrite Nat.div_mul by discriminate.
  rewrite bytes_of_bits_of_bytes.
  rewrite (drop_app_length' (bits_of_bytes s)) by (rewrite length_bits_of_bytes; lia).
  subst cs. rewrite take_take, Nat.min_id.
  rewrite bool_decide_eq_true_2 by reflexivity. reflexivity.
Qed.

Lemma mnemonic_decodes_any (s : list byte) :
  length (sha256 s) = 32%nat ->
  allowed_byte_count (length s) = true ->
  exists ws,
    to_mnemonic s = Ok (String.concat " " ws)
    /\ Forall (fun w => word_ok w = true) ws
    /\ (length ws * 4 = length s * 3)%nat
    /\ to_entropy (String.concat " " ws) = Ok s.
Proof.
  intros Hh Hbytes. pose proof Hbytes as Hin.
  unfold allowed_byte_count in Hin. apply bool_decide_eq_true in Hin.
  apply list_elem_of_In in Hin. cbn [In] in Hin.
  destruct Hin as [E | [E | [E | [E | [E | []]]]]]; symmetry in E.
  - destruct (mnemonic_decodes_sized s 4 12 Hh Hbytes eq_refl
                ltac:(rewrite E; reflexivity) ltac:(lia)
                ltac:(rewrite E; reflexivity) eq_refl) as (ws & ? & ? & Hl & ?).
    exists ws. rewrite Hl, E. auto.
  - destruct (mnemonic_decodes_sized s 5 15 Hh Hbytes eq_refl
                ltac:(rewrite E; reflexivity) ltac:(lia)
                ltac:(rewrite E; reflexivity) eq_refl) as (ws & ? & ? & Hl & ?).
    exists ws. rewrite Hl, E. auto.
  - destruct (mnemonic_decodes_sized s 6 18 Hh Hbytes eq_refl
                ltac:(rewrite E; reflexivity) ltac:(lia)
                ltac:(rewrite E; reflexivity) eq_refl) as (ws & ? & ? & Hl & ?).
    exists ws. rewrite Hl, E. auto.
  - destruct (mnemonic_decodes_sized s 7 21 Hh Hbytes eq_refl
                ltac:(rewrite E; reflexivity) ltac:(lia)
                ltac:(rewrite E; reflexivity) eq_refl) as (ws & ? & ? & Hl & ?).
    exists ws. rewrite Hl, E. auto.
  - destruct (mnemonic_decodes_sized s 8 24 Hh Hbytes eq_refl
                ltac:(rewrite E; reflexivity) ltac:(lia)
                ltac:(rewrite E; reflexivity) eq_refl) as (ws & ? & ? & Hl & ?).
    exists ws. rewrite Hl, E. auto.
Qed.
End PhraseSizes.

(** X9. The mnemonic attempt puts no condition on the length of what it
    decodes. For data of 16, 20, 24, 28 or 32 bytes the encoder gives a
    phrase of three words for every four bytes, the phrase decodes to the
    data, and unless the phrase happens to be hexadecimal text of 32 bytes
    the seed decoder returns the hexadecimal text of the data, two digits
    a byte: 32 digits for a phrase of twelve words, where the hexadecimal
    attempt insists on 64. *)
Theorem mnemonic_of_any_size {bip39 : Bip39} (s : list byte) (w : world) :
  wordlist_ok wordlist = true ->
  length (sha256 s) = 32%nat ->
  allowed_byte_count (length s) = true ->
  exists ws,
    to_mnemonic s = Ok (String.concat " " ws)
    /\ (length ws * 4 = length s * 3)%nat
    /\ to_entropy (String.concat " " ws) = Ok s
    /\ String.length (bytes_hex s) = (2 * length s)%nat
    /\ (is_hex_form (String.concat " " ws) = false ->
        run (_load_import (String.concat " " ws)) w
        = (Returned (PStr (bytes_hex s), PNone),
           [MnemonicToEntropy (String.concat " " ws)])).
Proof.
  intros Hwl Hh Hbytes.
  destruct (mnemonic_decodes_any Hwl s Hh Hbytes) as (ws & Hm & Hok & Hl & Hd).
  exists ws. split; [assumption|]. split; [assumption|]. split; [assumption|].
  split; [apply length_bytes_hex|].
  intros Hnh. unfold run. rewrite (load_import_not_hex _ w Hnh).
  apply load_import_mnemonic_ok. assumption.
Qed.

Lemma mnemonic_of_any_size_witness :
  exists ws,
    to_mnemonic (bip39 := sample_bip39) (repeat x00 16) = Ok (String.concat " " ws)
    /\ (length ws * 4 = length (repeat x00 16) * 3)%nat
    /\ to_entropy (bip39 := sample_bip39) (String.concat " " ws) = Ok (repeat x00 16)
    /\ String.length (bytes_hex (repeat x00 16)) = (2 * length (repeat x00 16))%nat
    /\ (is_hex_form (String.concat " " ws) = false ->
        run (_load_import (bip39 := sample_bip39) (String.concat " " ws)) (empty_world [])
        = (Returned (PStr (bytes_hex (repeat x00 16)), PNone),
           [MnemonicToEntropy (String.concat " " ws)])).
Proof.
  apply (mnemonic_of_any_size (bip39 := sample_bip39) (repeat x00 16) (empty_world []));
    vm_compute; reflexivity.
Defined.

(** ** The file [export] writes *)

Ltac no_such_event H :=
  repeat (apply elem_of_cons in H as [H|H]; [try discriminate|]);
  try (apply elem_of_nil in H; contradiction).

Lemma export_file_value {bip39 : Bip39} {client : Client} (prefix : string) (w : world) :
  let r := CommandLineInterface.export prefix w in
  (forall f, Wrote f ∈ new_events w (snd r) ->
             exists a s seed_phrase before,
               run (CommandLineInterface._load_account_prefix prefix) w
               = (Returned a, [Called Call_get_all_accounts])
               /\ new_events w (snd r)
                  = (before ++ [Called (Call_export_account_secrets (account_id a));
                                Wrote f; Printed ("Wrote " +:+ f +:+ ".")])%list
               /\ export_account_secrets (trace w ++ before)%list (account_id a) = Ok s
               /\ (exists b, bytes_fromhex (entropy s) = Some b
                             /\ to_mnemonic b = Ok seed_phrase)
               /\ f = "mobilecoin_seed_phrase_" +:+ slice_to 16 (account_id a) +:+ ".json"
               /\ fst r = Returned tt
               /\ (exists evs, snd r
                               = {| stdin := tl (stdin w);
                                    files := <[f := JsonText
                                                 (PDict [ ("seed_phrase", PStr seed_phrase);
                                                          ("root_entropy", PStr (entropy s));
                                                          ("account_id", PStr (account_id a));
                                                          ("account_name", PStr (name a));
                                                          ("account_key", account_key s);
                                                          ("first_block_index",
                                                           first_block_index a) ])]>
                                               (files w);
                                    trace := (trace w ++ evs)%list |}))
  /\ ((forall f, Wrote f ∉ new_events w (snd r)) -> files (snd r) = files w).
Proof.
  destruct w as [inp fs tr].
  unfold CommandLineInterface.export, CommandLineInterface._load_account_prefix, _save_export.
  simp. repeat (branch; simp); try (destruct inp; simp; repeat (branch; simp)).
  all: split; [intros f Hin; no_such_event Hin | intros Hno; try reflexivity].
  - inversion Hin; subst f.
    match goal with
    | Ea : dict_get _ _ = Ok ?a,
      Es : export_account_secrets ?h _ = Ok ?s,
      Eb : bytes_fromhex _ = Some ?b,
      Em : to_mnemonic _ = Ok ?p |- _ =>
        exists a, s, p; eexists;
        split; [reflexivity|];
        split; [|split; [|split; [exists b; split; [exact Eb | exact Em]|]]]
    end.
    + match goal with
      | |- ?l = _ =>
          let n := eval cbv in (length l - 3)%nat in
          rewrite <- (take_drop n l) at 1; cbn [take drop]; reflexivity
      end.
    + assumption.
    + split; [reflexivity|]. split; [reflexivity|]. eexists. reflexivity.
  - exfalso.
    match goal with
    | Hno : forall f, Wrote f ∉ ?l |- _ =>
        match l with
        | context [Wrote ?f] => apply (Hno f)
        end
    end.
    repeat constructor.
Qed.

Lemma load_import_file_form_value {bip39 : Bip39} (seed : string) (w : world) :
  is_hex_form seed = false -> is_mnemonic_form seed = false ->
  _load_import seed w
  = (recovery_file_outcome seed w,
     {| stdin := stdin w; files := files w;
        trace := (trace w ++ [MnemonicToEntropy seed; Opened seed])%list |}).
Proof.
  intros Hhex Hmn. pose proof (load_import_file_form seed w Hhex Hmn) as Hrun.
  destruct (load_import_value seed w) as (o & evs & E & _).
  unfold run, new_events in Hrun. rewrite E in Hrun. cbn [fst snd trace] in Hrun.
  rewrite drop_app_length in Hrun. inversion Hrun; subst. exact E.
Qed.

(** X10. [export] changes the files only by the one write it reports.
    When it reports writing a file, it has returned normally; the write
    comes right after the [export_account_secrets] call for the account the
    prefix resolved to; the name is made of the first 16 characters of the
    identifier of that account; and the file holds the six fields: the
    identifier, name and first block index of that account, the entropy
    and key the client gave in answer to that call, and the phrase the
    encoder makes of that entropy. When it reports no write, the files are
    as before. *)
Theorem export_writes_one_file {bip39 : Bip39} {client : Client}
        (prefix : string) (w : world) :
  let r := CommandLineInterface.export prefix w in
  (forall f, Wrote f ∈ new_events w (snd r) ->
             exists a s seed_phrase before,
               run (CommandLineInterface._load_account_prefix prefix) w
               = (Returned a, [Called Call_get_all_accounts])
               /\ new_events w (snd r)
                  = (before ++ [Called (Call_export_account_secrets (account_id a));
                                Wrote f; Printed ("Wrote " +:+ f +:+ ".")])%list
               /\ export_account_secrets (trace w ++ before)%list (account_id a) = Ok s
               /\ (exists b, bytes_fromhex (entropy s) = Some b
                             /\ to_mnemonic b = Ok seed_phrase)
               /\ f = "mobilecoin_seed_phrase_" +:+ slice_to 16 (account_id a) +:+ ".json"
               /\ fst r = Returned tt
               /\ files (snd r)
                  = <[f := JsonText (PDict [ ("seed_phrase", PStr seed_phrase);
                                             ("root_entropy", PStr (entropy s));
                                             ("account_id", PStr (account_id a));
                                             ("account_name", PStr (name a));
                                             ("account_key", account_key s);
                                             ("first_block_index", first_block_index a) ])]>
                    (files w))
  /\ ((forall f, Wrote f ∉ new_events w (snd r)) -> files (snd r) = files w).
Proof.
  cbv zeta. destruct (export_file_value prefix w) as [Hwrote Hnone].
  split; [|exact Hnone].
  intros f Hin.
  destruct (Hwrote f Hin) as (a & s & p & before & Ha & Hev & Hs & Hp & Hf & Hr & evs & Hw).
  exists a, s, p, before. repeat (split; [assumption|]). rewrite Hw. reflexivity.
Qed.

Lemma export_writes_one_file_witness :
  exists a s seed_phrase before,
    run (CommandLineInterface._load_account_prefix (client := sample_client) "abcx")
      (empty_world ["y"])
    = (Returned a, [Called Call_get_all_accounts])
    /\ new_events (empty_world ["y"])
         (snd (CommandLineInterface.export (bip39 := sample_bip39) (client := sample_client)
                 "abcx" (empty_world ["y"])))
       = (before ++ [Called (Call_export_account_secrets (account_id a));
                     Wrote "mobilecoin_seed_phrase_abcxyz.json";
                     Printed ("Wrote " +:+ "mobilecoin_seed_phrase_abcxyz.json" +:+ ".")])%list
    /\ export_account_secrets (Client := sample_client)
         (trace (empty_world ["y"]) ++ before)%list (account_id a) = Ok s
    /\ (exists b, bytes_fromhex (entropy s) = Some b
                  /\ to_mnemonic (bip39 := sample_bip39) b = Ok seed_phrase)
    /\ "mobilecoin_seed_phrase_abcxyz.json"
       = "mobilecoin_seed_phrase_" +:+ slice_to 16 (account_id a) +:+ ".json"
    /\ fst (CommandLineInterface.export (bip39 := sample_bip39) (client := sample_client)
              "abcx" (empty_world ["y"])) = Returned tt
    /\ files (snd (CommandLineInterface.export (bip39 := sample_bip39)
                     (client := sample_client) "abcx" (empty_world ["y"])))
       = <["mobilecoin_seed_phrase_abcxyz.json"
           := JsonText (PDict [ ("seed_phrase", PStr seed_phrase);
                                ("root_entropy", PStr (entropy s));
                                ("account_id", PStr (account_id a));
                                ("account_name", PStr (name a));
                                ("account_key", account_key s);
                                ("first_block_index", first_block_index a) ])]>
         (files (empty_world ["y"])).
Proof.
  apply (proj1 (export_writes_one_file (bip39 := sample_bip39) (client := sample_client)
                  "abcx" (empty_world ["y"]))).
  vm_compute. repeat constructor.
Defined.

(** X11. A file written by [export] can be imported again: given its
    name, [import_] reads it and hands the client the entropy the client
    gave when the account the prefix resolved to was exported and, when no
    block is given on the command line, the first block index of that
    account. *)
Theorem export_then_import_command {bip39 : Bip39} {client : Client}
        (prefix f : string) (name block : pyval) (w : world) :
  wordlist_ok wordlist = true ->
  let w1 := snd (CommandLineInterface.export prefix w) in
  Wrote f ∈ new_events w w1 ->
  exists a s before rest,
    run (CommandLineInterface._load_account_prefix prefix) w
    = (Returned a, [Called Call_get_all_accounts])
    /\ new_events w w1
       = (before ++ [Called (Call_export_account_secrets (account_id a));
                     Wrote f; Printed ("Wrote " +:+ f +:+ ".")])%list
    /\ export_account_secrets (trace w ++ before)%list (account_id a) = Ok s
    /\ trace (snd (CommandLineInterface.import_ f name block w1))
       = (trace w1
          ++ [MnemonicToEntropy f; Opened f;
              Called (Call_import_account (PStr (entropy s)) name
                        (spec_starting_block block (first_block_index a)))]
          ++ rest)%list.
Proof.
  intros Hwl w1 Hin.
  destruct (export_file_value prefix w) as [Hwrote _].
  destruct (Hwrote f Hin) as (a & s & p & before & Ha & Hev & Hs & Hp & Hf & Hr & evs & Hw).
  fold w1 in Hw, Hev.
  destruct (export_filename_is_file_form Hwl (account_id a)) as [Hhex Hmn].
  rewrite <- Hf in Hhex, Hmn.
  pose proof (load_import_file_form_value f w1 Hhex Hmn) as Hload.
  assert (Hout : recovery_file_outcome f w1
                 = Returned (PStr (entropy s), first_block_index a)).
  { unfold recovery_file_outcome. rewrite Hw. cbn [files].
    rewrite lookup_insert_eq. reflexivity. }
  rewrite Hout in Hload.
  destruct (import_call f name block _ _ _ _ Hload) as (rest & Ht & _).
  exists a, s, before, rest. split; [assumption|]. split; [assumption|].
  split; [assumption|].
  rewrite Ht. cbn [trace]. rewrite <- app_assoc. reflexivity.
Qed.

Lemma export_then_import_command_witness :
  let w1 := snd (CommandLineInterface.export (bip39 := sample_bip39)
                   (client := sample_client) "abcx" (empty_world ["y"])) in
  exists a s before rest,
    run (CommandLineInterface._load_account_prefix (client := sample_client) "abcx")
      (empty_world ["y"])
    = (Returned a, [Called Call_get_all_accounts])
    /\ new_events (empty_world ["y"]) w1
       = (before ++ [Called (Call_export_account_secrets (account_id a));
                     Wrote "mobilecoin_seed_phrase_abcxyz.json";
                     Printed ("Wrote " +:+ "mobilecoin_seed_phrase_abcxyz.json" +:+ ".")])%list
    /\ export_account_secrets (Client := sample_client)
         (trace (empty_world ["y"]) ++ before)%list (account_id a) = Ok s
    /\ trace (snd (CommandLineInterface.import_ (bip39 := sample_bip39)
                     (client := sample_client) "mobilecoin_seed_phrase_abcxyz.json"
                     PNone PNone w1))
       = (trace w1
          ++ [MnemonicToEntropy "mobilecoin_seed_phrase_abcxyz.json";
              Opened "mobilecoin_seed_phrase_abcxyz.json";
              Called (Call_import_account (PStr (entropy s)) PNone
                        (spec_starting_block PNone (first_block_index a)))]
          ++ rest)%list.
Proof.
  apply (export_then_import_command (bip39 := sample_bip39) (client := sample_client)
           "abcx" "mobilecoin_seed_phrase_abcxyz.json" PNone PNone (empty_world ["y"])).
  - vm_compute. reflexivity.
  - vm_compute. repeat constructor.
Defined.

(** ** The account [delete] removes *)

(** X12. When [delete] calls [delete_account], it does so once, last but
    for the closing message, and for the full identifier of the account the
    prefix resolved to, not for the prefix. [Deleted.] is printed right
    after the call when the call succeeds; when the call fails the command
    fails with it and prints nothing more. *)
Theorem delete_removes_resolved_account {client : Client} (prefix : string) (w : world) :
  let r := run (CommandLineInterface.delete prefix) w in
  forall a_id, Called (Call_delete_account a_id) ∈ snd r ->
    (exists a, run (CommandLineInterface._load_account_prefix prefix) w
               = (Returned a, [Called Call_get_all_accounts])
               /\ a_id = account_id a)
    /\ exists before,
        existsb (is_call is_delete_call) before = false
        /\ ((fst r = Returned tt
             /\ snd r = (before ++ [Called (Call_delete_account a_id);
                                    Printed "Deleted."])%list)
            \/ (exists e, fst r = Raised e
                          /\ snd r = (before ++ [Called (Call_delete_account a_id)])%list)).
Proof.
  cbv zeta. intros a_id. destruct w as [inp fs tr].
  unfold CommandLineInterface.delete, CommandLineInterface._load_account_prefix.
  simp. repeat (branch; simp); try (destruct inp; simp; repeat (branch; simp)).
  all: intros Hin; no_such_event Hin.
  all: inversion Hin; subst a_id; clear Hin.
  all: split; [eexists; split; reflexivity|].
  all: match goal with
       | |- context [Printed "Deleted."] =>
           eexists; split;
           [| left; split; [reflexivity|];
              match goal with
              | |- ?l = _ =>
                  let n := eval cbv in (length l - 2)%nat in
                  rewrite <- (take_drop n l) at 1; cbn [take drop]; reflexivity
              end ]; reflexivity
       | _ =>
           eexists; split;
           [| right; eexists; split; [reflexivity|];
              match goal with
              | |- ?l = _ =>
                  let n := eval cbv in (length l - 1)%nat in
                  rewrite <- (take_drop n l) at 1; cbn [take drop]; reflexivity
              end ]; reflexivity
       end.
Qed.

Lemma delete_removes_resolved_account_witness :
  (exists a, run (CommandLineInterface._load_account_prefix (client := sample_client) "abcx")
               (empty_world ["yes"])
             = (Returned a, [Called Call_get_all_accounts])
             /\ "abcxyz" = account_id a)
  /\ exists before,
      existsb (is_call is_delete_call) before = false
      /\ ((fst (run (CommandLineInterface.delete (client := sample_client) "abcx")
                  (empty_world ["yes"])) = Returned tt
           /\ snd (run (CommandLineInterface.delete (client := sample_client) "abcx")
                     (empty_world ["yes"]))
              = (before ++ [Called (Call_delete_account "abcxyz");
                            Printed "Deleted."])%list)
          \/ (exists e, fst (run (CommandLineInterface.delete (client := sample_client)
                                    "abcx") (empty_world ["yes"])) = Raised e
                        /\ snd (run (CommandLineInterface.delete (client := sample_client)
                                       "abcx") (empty_world ["yes"]))
                           = (before ++ [Called (Call_delete_account "abcxyz")])%list)).
Proof.
  apply (delete_removes_resolved_account (client := sample_client) "abcx"
           (empty_world ["yes"]) "abcxyz").
  vm_compute. repeat constructor.
Defined.

(** ** Commands that write no file *)

Lemma keeps_files_ret {A} (a : A) : keeps_files (mret a).
Proof. intros w. reflexivity. Qed.

Lemma keeps_files_raise {A} (e : exn) : keeps_files (raise (A := A) e).
Proof. intros w. reflexivity. Qed.

Lemma keeps_files_exit {A} (code : Z) : keeps_files (exit (A := A) code).
Proof. intros w. reflexivity. Qed.

Lemma keeps_files_lift {A} (r : result A) : keeps_files (lift r).
Proof. intros w. destruct r; reflexivity. Qed.

Lemma keeps_files_emit (e : event) : keeps_files (emit e).
Proof. intros w. reflexivity. Qed.

Lemma keeps_files_rpc {A} (c : call) (reply : list event -> result A) :
  keeps_files (rpc c reply).
Proof. intros w. unfold rpc. destruct (reply (trace w)); reflexivity. Qed.

Lemma keeps_files_input (message : string) : keeps_files (input message).
Proof. intros w. unfold input. destruct (stdin w); reflexivity. Qed.

Lemma keeps_files_bind {A B} (m : M A) (k : A -> M B) :
  keeps_files m -> (forall a, keeps_files (k a)) -> keeps_files (m ≫= k).
Proof.
  intros Hm Hk w. specialize (Hm w). unfold mbind, M_bind.
  destruct (m w) as [[a|code|e] w1]; cbn [snd] in *; [|assumption|assumption].
  rewrite (Hk a w1). assumption.
Qed.

Lemma keeps_files_mapM {A B} (f : A -> M B) (l : list A) :
  (forall a, keeps_files (f a)) -> keeps_files (mapM f l).
Proof.
  intros Hf. induction l as [|x l IH]; cbn [mapM].
  - apply keeps_files_ret.
  - apply keeps_files_bind; [apply Hf|]. intros y.
    apply keeps_files_bind; [apply IH|]. intros k. apply keeps_files_ret.
Qed.

Lemma keeps_files_confirm (message : string) : keeps_files (confirm message).
Proof.
  unfold confirm. apply keeps_files_bind; [apply keeps_files_input|].
  intros answer. apply keeps_files_ret.
Qed.

Lemma keeps_files_print_account (a : account) (b : balance) :
  keeps_files (_print_account a b).
Proof.
  unfold _print_account. destruct (total_blocks b) as [t o]. unfold print.
  apply keeps_files_bind; [apply keeps_files_emit|]. intros _.
  apply keeps_files_bind; [apply keeps_files_emit|]. intros _.
  apply keeps_files_emit.
Qed.

(** One syntactic step of the argument that a command writes no file. *)
Ltac keeps_files_step :=
  lazymatch goal with
  | |- keeps_files (mret _) => apply keeps_files_ret
  | |- keeps_files (raise _) => apply keeps_files_raise
  | |- keeps_files (exit _) => apply keeps_files_exit
  | |- keeps_files (lift _) => apply keeps_files_lift
  | |- keeps_files (emit _) => apply keeps_files_emit
  | |- keeps_files (print _) => apply keeps_files_emit
  | |- keeps_files (rpc _ _) => apply keeps_files_rpc
  | |- keeps_files (input _) => apply keeps_files_input
  | |- keeps_files (confirm _) => apply keeps_files_confirm
  | |- keeps_files (_print_account _ _) => apply keeps_files_print_account
  | |- keeps_files (mapM _ _) => apply keeps_files_mapM; intros ?
  | |- keeps_files (mbind _ _) => apply keeps_files_bind; [|intros ?]
  | |- keeps_files (if ?c then _ else _) => destruct c
  | |- keeps_files (match ?x with _ => _ end) => destruct x
  | |- keeps_files (let (_, _) := ?x in _) => destruct x
  end.

Lemma keeps_files_resolve {client : Client} (prefix : string) :
  keeps_files (CommandLineInterface._load_account_prefix prefix).
Proof.
  unfold CommandLineInterface._load_account_prefix. repeat keeps_files_step.
Qed.

Lemma keeps_files_load_import {bip39 : Bip39} (seed : string) :
  keeps_files (_load_import seed).
Proof.
  intros w. destruct (load_import_value seed w) as (o & evs & E & _).
  rewrite E. reflexivity.
Qed.

(** X13. Of the commands, only [export] writes: [import_], [delete],
    [send] and [list], and the resolution of an account prefix, leave every
    file as it was, however they end. *)
Theorem only_export_writes {bip39 : Bip39} {client : Client}
        (seed prefix to_address : string) (name block : pyval) (amount : spec_float)
        (w : world) :
  files (snd (CommandLineInterface.import_ seed name block w)) = files w
  /\ files (snd (CommandLineInterface.delete prefix w)) = files w
  /\ files (snd (CommandLineInterface.send prefix amount to_address w)) = files w
  /\ files (snd (CommandLineInterface.list w)) = files w
  /\ files (snd (CommandLineInterface._load_account_prefix prefix w)) = files w.
Proof.
  split; [|split; [|split; [|split]]].
  - revert w. change (keeps_files (CommandLineInterface.import_ seed name block)).
    unfold CommandLineInterface.import_.
    apply keeps_files_bind; [apply keeps_files_load_import|]. intros [entropy file_block].
    repeat keeps_files_step.
  - revert w. change (keeps_files (CommandLineInterface.delete prefix)).
    unfold CommandLineInterface.delete.
    apply keeps_files_bind; [apply keeps_files_resolve|]. intros a.
    cbv zeta. repeat keeps_files_step.
  - revert w. change (keeps_files (CommandLineInterface.send prefix amount to_address)).
    unfold CommandLineInterface.send.
    apply keeps_files_bind; [apply keeps_files_resolve|]. intros a.
    cbv zeta. repeat keeps_files_step.
  - revert w. change (keeps_files CommandLineInterface.list).
    unfold CommandLineInterface.list. repeat keeps_files_step.
  - apply keeps_files_resolve.
Qed.

(** ** Starting and stopping the server *)

Lemma path_is_not_a_flag (MC_DATA suffix flag : string) :
  (String.length flag < String.length suffix)%nat -> MC_DATA +:+ suffix <> flag.
Proof.
  intros Hlen E. apply (f_equal String.length) in E. rewrite length_append in E. lia.
Qed.

Ltac not_in_command H :=
  repeat (apply elem_of_cons in H as [H|H];
          [first [ discriminate
                 | exfalso; symmetry in H; revert H; apply path_is_not_a_flag; cbn; lia ]|]);
  try (apply elem_of_nil in H; contradiction).

(** X14. For a data directory given by an absolute path, [start] passes
    [--offline] to the server exactly when asked to start offline, and then
    names no peer and no transaction source; asked to start online it names
    two of each. The redirection to the log file closes the command line
    exactly when the server is started in the background. *)
Theorem start_command_flags (NETWORK : network) (MC_DATA : string) (offline bg : bool) :
  String.prefix "/" MC_DATA = true ->
  let command := wallet_server_command NETWORK MC_DATA offline bg in
  ("--offline" ∈ command <-> offline = true)
  /\ length (List.filter (String.prefix "--peer") command)
     = (if offline then 0%nat else 2%nat)
  /\ length (List.filter (String.prefix "--tx-source-url") command)
     = (if offline then 0%nat else 2%nat)
  /\ exists front,
      command = (front ++ if bg then [">"; LOG_LOCATION MC_DATA; "2>&1"] else [])%list
      /\ ">" ∉ front.
Proof.
  intros Habs. destruct MC_DATA as [|c r]; [discriminate|].
  cbn [String.prefix] in Habs. destruct (ascii_dec "/" c) as [<-|]; [|discriminate].
  clear Habs. cbv zeta. split; [|split; [|split]].
  - destruct NETWORK, offline, bg; (split; [intros H | intros H; try discriminate]);
      first [ reflexivity
            | solve [unfold wallet_server_command; cbn [app]; repeat constructor]
            | unfold wallet_server_command, LOG_LOCATION in H; cbn [app] in H;
              not_in_command H ].
  - destruct NETWORK, offline, bg; reflexivity.
  - destruct NETWORK, offline, bg; reflexivity.
  - destruct bg.
    + eexists. split.
      * unfold wallet_server_command. rewrite !app_assoc. reflexivity.
      * intros H. destruct NETWORK, offline; cbn [app] in H; not_in_command H.
    + eexists. split.
      * rewrite app_nil_r. reflexivity.
      * intros H. unfold wallet_server_command in H.
        destruct NETWORK, offline; cbn [app] in H; not_in_command H.
Qed.

Lemma start_command_flags_witness :
  "--offline" ∈ wallet_server_command testnet "/home/u/.mobilecoin/testnet" true false
  <-> true = true.
Proof.
  apply (start_command_flags testnet "/home/u/.mobilecoin/testnet" true false).
  reflexivity.
Defined.

(** X15. On the test network [stop] asks for the end of the process that
    [start] launches; on the main network it asks for the end of
    [full-service], while [start] launches [full-service-mainnet]. *)
Theorem stop_targets_started_process (NETWORK : network) (MC_DATA : string) :
  (NETWORK = testnet ->
   killed_process NETWORK = launched_process NETWORK MC_DATA)
  /\ (NETWORK = mainnet ->
      killed_process NETWORK = "full-service"
      /\ launched_process NETWORK MC_DATA = "full-service-mainnet").
Proof. split; intros ->; [reflexivity | split; reflexivity]. Qed.

Lemma stop_targets_started_process_witness :
  killed_process testnet = launched_process testnet "/home/u/.mobilecoin/testnet".
Proof.
  apply (stop_targets_started_process testnet "/home/u/.mobilecoin/testnet").
  reflexivity.
Defined.

(** ** An import is not undone *)

(** X16. [import_] asks for the balance only after the client has imported
    the account. When that query fails, the command fails with it, right
    after the two calls and without printing anything, although the
    account has been imported; when it succeeds, the command prints the
    account, as [list] shows one, and returns. *)
Theorem import_then_balance {bip39 : Bip39} {client : Client}
        (seed : string) (name block entropy file_block : pyval) (w w1 : world)
        (imported : account) :
  _load_import seed w = (Returned (entropy, file_block), w1) ->
  let passed := spec_starting_block block file_block in
  let calls := [Called (Call_import_account entropy name passed);
                Called (Call_get_balance_for_account (account_id imported))] in
  import_account (trace w1) entropy name passed = Ok imported ->
  (forall e,
      get_balance_for_account
        (trace w1 ++ [Called (Call_import_account entropy name passed)])
        (account_id imported) = Err e ->
      CommandLineInterface.import_ seed name block w
      = (Raised e,
         {| stdin := stdin w1; files := files w1; trace := (trace w1 ++ calls)%list |}))
  /\ (forall b,
         get_balance_for_account
           (trace w1 ++ [Called (Call_import_account entropy name passed)])
           (account_id imported) = Ok b ->
         CommandLineInterface.import_ seed name block w
         = (Returned tt,
            {| stdin := stdin w1; files := files w1;
               trace := (trace w1 ++ calls
                         ++ [Printed "Imported account."]
                         ++ listed_lines imported b
                         ++ [Printed ""])%list |})).
Proof.
  intros Hload passed calls Himp.
  assert (Hstart :
             CommandLineInterface.import_ seed name block w
             = (account ← rpc (Call_import_account entropy name passed)
                              (fun h => import_account h entropy name passed);
                let account_id := account_id account in
                balance ← rpc (Call_get_balance_for_account account_id)
                              (fun h => get_balance_for_account h account_id);
                print "Imported account.";;
                print "";;
                _print_account account balance;;
                print "") w1).
  { unfold CommandLineInterface.import_.
    rewrite (bind_returned _ _ _ _ _ Hload). rewrite starting_block_rule. reflexivity. }
  rewrite Hstart. clear Hstart Hload.
  destruct w1 as [inp fs tr]. cbn [trace stdin files] in *. split.
  - intros e He. simp. rewrite Himp. simp. rewrite He. simp. reflexivity.
  - intros b Hb. simp. rewrite Himp. simp. rewrite Hb. simp.
    rewrite (total_blocks_rule b). simp. reflexivity.
Qed.

Lemma import_then_balance_witness :
  CommandLineInterface.import_ (bip39 := sample_bip39) (client := sample_client)
    zero_entropy_hex PNone (PInt 0) (empty_world [])
  = (Returned tt,
     {| stdin := []; files := ∅;
        trace := ([] ++ [Called (Call_import_account (PStr zero_entropy_hex) PNone (PInt 0));
                         Called (Call_get_balance_for_account "abc123")]
                  ++ [Printed "Imported account."]
                  ++ listed_lines (sample_account "abc123") (sample_balance 0 true 10)
                  ++ [Printed ""])%list |}).
Proof.
  apply (proj2 (import_then_balance (bip39 := sample_bip39) (client := sample_client)
                  zero_entropy_hex PNone (PInt 0) (PStr zero_entropy_hex) PNone
                  (empty_world []) (empty_world []) (sample_account "abc123")
                  eq_refl eq_refl)).
  reflexivity.
Defined.

(** ** The empty prefix *)

Lemma filter_all_true {A} (f : A -> bool) (l : list A) :
  (forall x, f x = true) -> List.filter f l = l.
Proof.
  intros Hf. induction l as [|x l IH]; [reflexivity|].
  cbn [List.filter]. rewrite Hf, IH. reflexivity.
Qed.

Lemma startswith_empty (s : string) : startswith s "" = true.
Proof. destruct s; reflexivity. Qed.

(** X17. The empty prefix matches every account: resolving it returns the
    account when the wallet holds exactly one, and otherwise fails, listing
    every identifier of the wallet when there are several. *)
Theorem empty_prefix_matches_all {client : Client} (w : world)
        (accounts : list (string * account)) :
  get_all_accounts (trace w) = Ok accounts ->
  let r := run (CommandLineInterface._load_account_prefix "") w in
  (forall a_id a, accounts = [(a_id, a)] -> r = (Returned a, [Called Call_get_all_accounts]))
  /\ ((2 <= length accounts)%nat ->
      r = (Exited 1, [Called Call_get_all_accounts;
                      Printed ("Multiple matching matching ids: "
                               +:+ String.concat ", " (map fst accounts))]))
  /\ (accounts = [] ->
      r = (Exited 1, [Called Call_get_all_accounts;
                      Printed "Could not find account starting with "])).
Proof.
  intros Hacc. cbv zeta. rewrite (load_account_prefix_run "" w accounts Hacc).
  rewrite (filter_all_true _ _ startswith_empty). split; [|split].
  - intros a_id a ->. cbn. rewrite String.eqb_refl. reflexivity.
  - intros Hlen. destruct accounts as [|x [|y rest]]; cbn in Hlen; try lia. reflexivity.
  - intros ->. reflexivity.
Qed.

Lemma empty_prefix_matches_all_witness :
  run (CommandLineInterface._load_account_prefix (client := sample_client) "") (empty_world [])
  = (Exited 1, [Called Call_get_all_accounts;
                Printed "Multiple matching matching ids: abc123, abcxyz"]).
Proof.
  apply (empty_prefix_matches_all (client := sample_client) (empty_world [])
           [("abc123", sample_account "abc123"); ("abcxyz", sample_account "abcxyz")]
           eq_refl).
  cbn. lia.
Defined.
